(** * OpenRCT2 network client: a shallow embedding and its properties

    Embedded sources:
    - [src/network/NetworkClient.cpp]: class [NetworkClient];
    - [src/object/WaterObject.h], second document: the implementation of
      class [NetworkKey] (generation, loading, saving, signing, unloading).

    The program is single threaded.  Every method becomes a function in a
    state-and-fault monad over one [State] record that holds the process-wide
    variables the client reads and writes, the file system, a log of the
    calls made on external collaborators, and the fields of the one
    [NetworkClient] object with its [NetworkKey] member.  Library functions
    whose code is not part of the repository (OpenSSL, SDL, zlib, the game
    loader) are taken as parameters, collected in the record [Externals].

    Not embedded: [RecieveServerInfo] (JSON decoding), [NetworkKey::Verify],
    the accessors, and the methods with an empty body ([Update],
    [SendChatMessage], [SendGameCommand]). *)

From Stdlib Require Import ZArith Lia Sorting.Sorted Sorting.Permutation.
From stdpp Require Import base option list gmap strings.

Local Open Scope Z_scope.

(** ** Scalars *)

Definition byte := Byte.byte.
Definition x00 : byte := Byte.x00.

Definition UINT32_MAX : Z := 4294967295.

(** [unsigned int] conversion of a size, as in the arguments of the
    download-progress message. *)
Definition to_uint32 (z : Z) : Z := z mod 2 ^ 32.

(** ** The state-and-fault monad

    A method either returns a value and a state, or stops at a fault: a
    failed [Guard::Assert], or an operation whose behaviour C++ leaves
    undefined.  The state reached at the fault is kept.  A fault ends what
    the model says about a run: what the program does after it is not
    described. *)

Inductive fault : Type :=
| GuardFailed       (* Guard::Assert on a false expression *)
| NullDereference   (* member access through a null pointer *)
| NullString        (* std::string constructed from nullptr *)
| BadArrayLength    (* new char[n] with a negative n *)
| OutOfBounds.      (* access past the end of a buffer *)

Inductive res (S A : Type) : Type :=
| Ret (a : A) (s : S)
| Abort (f : fault) (s : S).
Arguments Ret {S A} a s.
Arguments Abort {S A} f s.

Definition M (S A : Type) : Type := S -> res S A.

Definition ret {S A} (a : A) : M S A := fun s => Ret a s.

Definition bind {S A B} (c : M S A) (k : A -> M S B) : M S B :=
  fun s => match c s with
           | Ret a s' => k a s'
           | Abort f s' => Abort f s'
           end.

Definition abort {S A} (f : fault) : M S A := fun s => Abort f s.
Definition gets {S A} (p : S -> A) : M S A := fun s => Ret (p s) s.
Definition modify {S} (u : S -> S) : M S unit := fun s => Ret tt (u s).

Notation "'let*' x ':=' c 'in' k" := (bind c (fun x => k))
  (at level 10, x pattern, c at level 100, k at level 200).

(** [Guard::Assert(expression)].  Its code (core/Guard.hpp) is not among
    the sources.  A true expression lets the method go on.  On a false one
    the model follows the method no further: the outcome is the fault
    [GuardFailed] with the state in which the guard was reached. *)
Definition Guard_Assert {S} (expression : bool) : M S unit :=
  if expression then ret tt else abort GuardFailed.

(** The state a computation ends in, whether it returned or stopped. *)
Definition final_state {S A} (r : res S A) : S :=
  match r with Ret _ s => s | Abort _ s => s end.

(** ** Data of the network layer

    The enumerations and the connection, packet and command types are
    declared in headers that are not among the sources (NetworkTypes.h,
    NetworkConnection.h, NetworkPacket.h, TcpSocket.h); they are given here
    with the members the client uses. *)

(** Modelled from the spec: the process-wide "client vs. server vs. none"
    network mode. *)
Inductive NETWORK_MODE : Type :=
| NETWORK_MODE_NONE | NETWORK_MODE_CLIENT | NETWORK_MODE_SERVER.

Inductive NETWORK_CLIENT_STATUS : Type :=
| NETWORK_CLIENT_STATUS_NONE
| NETWORK_CLIENT_STATUS_CONNECTING
| NETWORK_CLIENT_STATUS_CONNECTED.

Inductive SOCKET_STATUS : Type :=
| SOCKET_STATUS_CLOSED
| SOCKET_STATUS_RESOLVING
| SOCKET_STATUS_CONNECTING
| SOCKET_STATUS_CONNECTED.

Inductive NETWORK_AUTH : Type :=
| NETWORK_AUTH_NONE
| NETWORK_AUTH_REQUESTED
| NETWORK_AUTH_OK
| NETWORK_AUTH_BADPASSWORD
| NETWORK_AUTH_VERIFICATIONFAILURE.

Inductive rct_string_id : Type :=
| STR_MULTIPLAYER_VERIFICATION_FAILURE
| STR_MULTIPLAYER_DOWNLOADING_MAP.

Inductive NETWORK_COMMAND : Type :=
| NETWORK_COMMAND_AUTH
| NETWORK_COMMAND_GAMEINFO
| NETWORK_COMMAND_PING.

(** What a packet is made of: the calls that filled it, in order.  A raw
    write is recorded with the pointer (null is [None]) and the length it was
    given. *)
Inductive PacketItem : Type :=
| PCommand (c : NETWORK_COMMAND)
| PString (s : string)
| PUint32 (z : Z)
| PRaw (data : option (list byte)) (len : Z).

Definition NetworkPacket : Type := list PacketItem.

Record TcpSocket : Type := mkTcpSocket {
  sock_peer : option (string * Z);
  sock_disconnected : bool
}.

(** Modelled from the spec: a connection has a socket, an authentication
    status and a "last disconnect reason"; [QueuedPackets] are the packets
    handed to [QueuePacket], oldest first. *)
Record NetworkConnection : Type := mkNetworkConnection {
  Socket : TcpSocket;
  AuthStatus : NETWORK_AUTH;
  LastDisconnectReason : option rct_string_id;
  QueuedPackets : list NetworkPacket
}.

(** Modelled from the spec: [GameCommand], declared in NetworkTypes.h,
    which is not among the sources.  It carries the machine-word arguments
    of the command dispatcher, the tick the command applies on, the issuing
    player and the callback identifier. *)
Record GameCommand : Type := mkGameCommand {
  tick : Z;
  eax : Z; ebx : Z; ecx : Z; edx : Z; esi : Z; edi : Z; ebp : Z;
  playerid : Z;
  callback : Z
}.

Record NetworkServerInfo : Type := mkNetworkServerInfo {
  Name : option string;
  Description : option string;
  ProviderName : option string;
  ProviderEmail : option string;
  ProviderWebsite : option string
}.

(** ** Key material *)

Record RSA : Type := mkRSA {
  rsa_modulus : Z;
  rsa_public_exponent : Z;
  rsa_private_exponent : option Z
}.

(** An [EVP_PKEY] as [EVP_PKEY_new] makes it holds no key; [EVP_PKEY_set1_RSA]
    with a non-null [RSA] puts one in. *)
Record EVP_PKEY : Type := mkEVP_PKEY { pkey_rsa : option RSA }.

Inductive EVP_PKEY_CTX : Type := RsaKeygenContext.

Record NetworkKey : Type := mkNetworkKey {
  m_ctx : option EVP_PKEY_CTX;
  m_key : option EVP_PKEY
}.

(** ** Files

    An [SDL_RWops] on a file: what [size] reports (-1 when unknown) and the
    bytes [read] delivers. *)
Record SDL_RWops : Type := mkRWops {
  rw_size : Z;
  rw_data : list byte
}.

Record File : Type := mkFile {
  file_rw : SDL_RWops;
  file_readable : bool   (* whether opening it for reading succeeds *)
}.

(** ** Calls on external collaborators, in the order they are made

    Diagnostic output ([Console], [log_error], [log_verbose]) is not
    recorded. *)

Inductive Event : Type :=
| EvConnectAsync (host : string) (port : Z)
| EvChatStartLogging
| EvChatShowHelp
| EvSocketDisconnect
| EvFileRead (count : Z)
| EvPemReadPrivate (pem : list byte)
| EvPemReadPublic (pem : list byte)
| EvPkeyFree (key : EVP_PKEY)
| EvKeygen
| EvNetworkStatusOpen (received_kib total_kib : Z)
| EvNetworkStatusClose
| EvZlibInflate (body : list byte) (body_size : Z)
| EvGameLoadNetwork (snapshot : list byte)
| EvGameLoadInit
| EvGameLoadOrQuit
| EvChatShowMessage (message : string).

(** ** The state

    [World]: the process-wide variables ([Network2::GetMode] and [SetMode]
    read and write [gNetworkMode]), the file system and the event log. *)

Record World : Type := mkWorld {
  gNetworkMode : NETWORK_MODE;
  gCurrentTicks : Z;
  files : gmap string File;
  log : list Event
}.

(** The fields of [NetworkClient].  [_gameCommandQueue] is the in-order
    content of the [std::multiset]. *)
Record NetworkClient : Type := mkNetworkClient {
  _status : NETWORK_CLIENT_STATUS;
  _lastConnectStatus : SOCKET_STATUS;
  _serverConnection : option NetworkConnection;
  _key : NetworkKey;
  _challenge : list byte;
  _mapBuffer : list byte;
  _serverTick : Z;
  _serverSrand0 : Z;
  _serverSrand0Tick : Z;
  _desynchronised : bool;
  _gameCommandQueue : list GameCommand;
  _serverInfo : NetworkServerInfo;
  _playerId : Z
}.

Record State : Type := mkState {
  world : World;
  client : NetworkClient
}.

Definition set_gNetworkMode (v : NETWORK_MODE) (w : World) : World :=
  mkWorld v (gCurrentTicks w) (files w) (log w).
Definition set_gCurrentTicks (v : Z) (w : World) : World :=
  mkWorld (gNetworkMode w) v (files w) (log w).
Definition set_files (v : gmap string File) (w : World) : World :=
  mkWorld (gNetworkMode w) (gCurrentTicks w) v (log w).
Definition set_log (v : list Event) (w : World) : World :=
  mkWorld (gNetworkMode w) (gCurrentTicks w) (files w) v.

Definition set_status (v : NETWORK_CLIENT_STATUS) (c : NetworkClient) : NetworkClient :=
  let '(mkNetworkClient _ a2 a3 a4 a5 a6 a7 a8 a9 a10 a11 a12 a13) := c in
  mkNetworkClient v a2 a3 a4 a5 a6 a7 a8 a9 a10 a11 a12 a13.
Definition set_lastConnectStatus (v : SOCKET_STATUS) (c : NetworkClient) : NetworkClient :=
  let '(mkNetworkClient a1 _ a3 a4 a5 a6 a7 a8 a9 a10 a11 a12 a13) := c in
  mkNetworkClient a1 v a3 a4 a5 a6 a7 a8 a9 a10 a11 a12 a13.
Definition set_serverConnection (v : option NetworkConnection) (c : NetworkClient) : NetworkClient :=
  let '(mkNetworkClient a1 a2 _ a4 a5 a6 a7 a8 a9 a10 a11 a12 a13) := c in
  mkNetworkClient a1 a2 v a4 a5 a6 a7 a8 a9 a10 a11 a12 a13.
Definition set_key (v : NetworkKey) (c : NetworkClient) : NetworkClient :=
  let '(mkNetworkClient a1 a2 a3 _ a5 a6 a7 a8 a9 a10 a11 a12 a13) := c in
  mkNetworkClient a1 a2 a3 v a5 a6 a7 a8 a9 a10 a11 a12 a13.
Definition set_challenge (v : list byte) (c : NetworkClient) : NetworkClient :=
  let '(mkNetworkClient a1 a2 a3 a4 _ a6 a7 a8 a9 a10 a11 a12 a13) := c in
  mkNetworkClient a1 a2 a3 a4 v a6 a7 a8 a9 a10 a11 a12 a13.
Definition set_mapBuffer (v : list byte) (c : NetworkClient) : NetworkClient :=
  let '(mkNetworkClient a1 a2 a3 a4 a5 _ a7 a8 a9 a10 a11 a12 a13) := c in
  mkNetworkClient a1 a2 a3 a4 a5 v a7 a8 a9 a10 a11 a12 a13.
Definition set_serverTick (v : Z) (c : NetworkClient) : NetworkClient :=
  let '(mkNetworkClient a1 a2 a3 a4 a5 a6 _ a8 a9 a10 a11 a12 a13) := c in
  mkNetworkClient a1 a2 a3 a4 a5 a6 v a8 a9 a10 a11 a12 a13.
Definition set_serverSrand0 (v : Z) (c : NetworkClient) : NetworkClient :=
  let '(mkNetworkClient a1 a2 a3 a4 a5 a6 a7 _ a9 a10 a11 a12 a13) := c in
  mkNetworkClient a1 a2 a3 a4 a5 a6 a7 v a9 a10 a11 a12 a13.
Definition set_serverSrand0Tick (v : Z) (c : NetworkClient) : NetworkClient :=
  let '(mkNetworkClient a1 a2 a3 a4 a5 a6 a7 a8 _ a10 a11 a12 a13) := c in
  mkNetworkClient a1 a2 a3 a4 a5 a6 a7 a8 v a10 a11 a12 a13.
Definition set_desynchronised (v : bool) (c : NetworkClient) : NetworkClient :=
  let '(mkNetworkClient a1 a2 a3 a4 a5 a6 a7 a8 a9 _ a11 a12 a13) := c in
  mkNetworkClient a1 a2 a3 a4 a5 a6 a7 a8 a9 v a11 a12 a13.
Definition set_gameCommandQueue (v : list GameCommand) (c : NetworkClient) : NetworkClient :=
  let '(mkNetworkClient a1 a2 a3 a4 a5 a6 a7 a8 a9 a10 _ a12 a13) := c in
  mkNetworkClient a1 a2 a3 a4 a5 a6 a7 a8 a9 a10 v a12 a13.

Definition on_world (u : World -> World) (s : State) : State :=
  mkState (u (world s)) (client s).
Definition on_client (u : NetworkClient -> NetworkClient) (s : State) : State :=
  mkState (world s) (u (client s)).

(** Appends one call to the log. *)
Definition emit (e : Event) : M State unit :=
  modify (on_world (fun w => set_log (log w ++ [e]) w)).

Definition Network2_GetMode : M State NETWORK_MODE :=
  gets (fun s => gNetworkMode (world s)).
Definition Network2_SetMode (mode : NETWORK_MODE) : M State unit :=
  modify (on_world (set_gNetworkMode mode)).

Definition NETWORK_MODE_eqb (a b : NETWORK_MODE) : bool :=
  match a, b with
  | NETWORK_MODE_NONE, NETWORK_MODE_NONE
  | NETWORK_MODE_CLIENT, NETWORK_MODE_CLIENT
  | NETWORK_MODE_SERVER, NETWORK_MODE_SERVER => true
  | _, _ => false
  end.

(** ** External functions

    The code of these is not part of the repository.  Each is a parameter of
    the model; an [int] result is a [Z], a pointer result an [option] or a
    [bool] that tells whether it is non-null. *)

Record Externals : Type := mkExternals {
  (* configuration, paths and constants *)
  player_name : string;                        (* gConfigNetwork.player_name *)
  GetPrivateKeyPath : string -> string;        (* NetworkKey::GetPrivateKeyPath *)
  GetPublicKeyPath : string -> string -> string;
  GetKeysDirectory : string;
  NETWORK_STREAM_ID : string;
  SV6_HEADER_ZLIB_COMPRESSED : list byte;
  (* platform and SDL *)
  platform_ensure_directory_exists : string -> bool;
  can_open_for_writing : string -> bool;       (* SDL_RWFromFile(path, "wb+") non-null *)
  indeterminate_size : Z;                      (* content of an uninitialised size_t *)
  (* OpenSSL: key generation and encoding *)
  EVP_PKEY_CTX_set_rsa_keygen_bits : Z -> Z;
  EVP_PKEY_keygen_init : Z;
  EVP_PKEY_keygen : option EVP_PKEY;           (* the generated key when the result is > 0 *)
  BIO_new_mem_buf : list byte -> bool;
  BIO_new_mem : bool;                          (* BIO_new(BIO_s_mem()) non-null *)
  PEM_read_bio_RSAPrivateKey : list byte -> option RSA;
  PEM_read_bio_RSAPublicKey : list byte -> option RSA;
  RSA_check_key : option RSA -> Z;
  PEM_write_bio_RSAPrivateKey : RSA -> Z * list byte;  (* result, bytes pending in the BIO *)
  PEM_write_bio_RSAPublicKey : RSA -> Z * list byte;
  (* OpenSSL: digests and signatures *)
  EVP_DigestInit_ex_sha1 : Z;
  EVP_DigestUpdate : string -> Z;
  EVP_DigestFinal : string -> list byte;
  EVP_MD_CTX_create : bool;
  EVP_DigestSignInit : option EVP_PKEY -> Z;
  EVP_DigestSignUpdate : option EVP_PKEY -> list byte -> Z;
  (* length query: the size found in *out_size before the call; result and
     the size found there after it *)
  EVP_DigestSignFinal_length : option EVP_PKEY -> list byte -> Z -> Z * Z;
  OPENSSL_malloc : Z -> bool;
  (* result, signature bytes, size written to *out_size *)
  EVP_DigestSignFinal : option EVP_PKEY -> list byte -> Z -> Z * list byte * Z;
  (* core/String.hpp: the buffer compared, as a C string, with a constant *)
  String_Equals : list byte -> list byte -> bool;
  String_SizeOf : list byte -> nat;
  (* zlib and the game loader *)
  util_zlib_inflate : list byte -> Z -> option (list byte);
  (* snapshot and gCurrentTicks before the call; result and gCurrentTicks
     after it *)
  game_load_network : list byte -> Z -> bool * Z;
  game_load_init : Z -> Z                      (* gCurrentTicks before and after *)
}.

Definition KEY_LENGTH_BITS : Z := 2048.
Definition KEY_SIZE_CEILING : Z := 4 * 1024 * 1024.

(** The text a [char *] points at: the bytes before the first NUL. *)
Fixpoint c_str (bytes : list byte) : list byte :=
  match bytes with
  | [] => []
  | b :: rest => if Byte.eqb b x00 then [] else b :: c_str rest
  end.

(** [sprintf(buf, "%02x", c)] for an [unsigned char]. *)
Definition hex_digit (n : N) : Ascii.ascii :=
  Ascii.ascii_of_N (if (n <? 10)%N then 48 + n else 87 + n)%N.

Definition hex02 (b : byte) : string :=
  let n := Byte.to_N b in
  String (hex_digit (n / 16)%N) (String (hex_digit (n mod 16)%N) EmptyString).

Section NetworkKey.

Context (X : Externals).

Definition key_handle : M State (option EVP_PKEY) :=
  gets (fun s => m_key (_key (client s))).

Definition put_m_key (k : option EVP_PKEY) : M State unit :=
  modify (on_client (fun c => set_key (mkNetworkKey (m_ctx (_key c)) k) c)).

Definition EVP_PKEY_free (k : option EVP_PKEY) : M State unit :=
  match k with
  | Some pk => emit (EvPkeyFree pk)
  | None => ret tt
  end.

Definition NetworkKey_Unload : M State unit :=
  let* k := key_handle in
  match k with
  | Some pk =>
      let* _ := EVP_PKEY_free (Some pk) in
      put_m_key None
  | None => ret tt
  end.

Definition NetworkKey_Generate : M State bool :=
  let* ctx := gets (fun s => m_ctx (_key (client s))) in
  match ctx with
  | None => ret false
  | Some _ =>
      if EVP_PKEY_CTX_set_rsa_keygen_bits X KEY_LENGTH_BITS =? 0 then ret false
      else if EVP_PKEY_keygen_init X <=? 0 then ret false
      else match EVP_PKEY_keygen X with
           | None => ret false
           | Some k =>
               let* _ := emit EvKeygen in
               let* _ := put_m_key (Some k) in
               ret true
           end
  end.

(** [new char[size]] followed by [file->read(file, buffer, 1, size)]: the
    buffer holds the bytes the file delivered, at most [size] of them. *)
Definition read_whole (f : SDL_RWops) (size : Z) : M State (list byte) :=
  if size <? 0 then abort BadArrayLength
  else
    let* _ := emit (EvFileRead size) in
    ret (take (Z.to_nat size) (rw_data f)).

(** [PEM_read_bio_RSAPrivateKey] gives a null pointer for content that does
    not parse.  The code hands its result to [RSA_check_key] without a test,
    and [RSA_check_key] reads through the pointer: on a null pointer that is
    a null dereference.  The test [!RSA_check_key(rsa)] takes the result 0,
    and no other, for a failed check. *)
Definition NetworkKey_LoadPrivate (file : option SDL_RWops) : M State bool :=
  match file with
  | None => abort NullDereference
  | Some f =>
      let size := rw_size f in
      if size =? -1 then ret false
      else if size >? KEY_SIZE_CEILING then ret false
      else
        let* priv_key := read_whole f size in
        if negb (BIO_new_mem_buf X priv_key) then ret false
        else
          let* _ := emit (EvPemReadPrivate priv_key) in
          match PEM_read_bio_RSAPrivateKey X priv_key with
          | None => abort NullDereference
          | Some rsa =>
              if RSA_check_key X (Some rsa) =? 0 then ret false
              else
                let* k := key_handle in
                let* _ := EVP_PKEY_free k in
                let* _ := put_m_key (Some (mkEVP_PKEY (Some rsa))) in
                ret true
          end
  end.

Definition NetworkKey_LoadPublic (file : option SDL_RWops) : M State bool :=
  match file with
  | None => abort NullDereference
  | Some f =>
      let size := rw_size f in
      if size =? -1 then ret false
      else if size >? KEY_SIZE_CEILING then ret false
      else
        let* pub_key := read_whole f size in
        if negb (BIO_new_mem_buf X pub_key) then ret false
        else
          let* _ := emit (EvPemReadPublic pub_key) in
          let rsa := PEM_read_bio_RSAPublicKey X pub_key in
          let* k := key_handle in
          let* _ := EVP_PKEY_free k in
          let* _ := put_m_key (Some (mkEVP_PKEY rsa)) in
          ret true
  end.

(** [file->write(file, pem_key, keylen, 1)] on a file opened with "wb+". *)
Definition file_write (path : string) (bytes : list byte) : M State unit :=
  modify (on_world (fun w =>
    set_files (<[path := mkFile (mkRWops (Z.of_nat (length bytes)) bytes) true]> (files w)) w)).

Definition NetworkKey_SavePrivate (file : string) : M State bool :=
  let* k := key_handle in
  match k with
  | None => ret false
  | Some pk =>
      match pkey_rsa pk with
      | None => ret false
      | Some rsa =>
          if RSA_check_key X (Some rsa) =? 0 then ret false
          else if negb (BIO_new_mem X) then ret false
          else
            let '(result, pem_key) := PEM_write_bio_RSAPrivateKey X rsa in
            if negb (result =? 1) then ret false
            else
              let* _ := file_write file pem_key in
              ret true
      end
  end.

Definition NetworkKey_SavePublic (file : string) : M State bool :=
  let* k := key_handle in
  match k with
  | None => ret false
  | Some pk =>
      match pkey_rsa pk with
      | None => ret false
      | Some rsa =>
          if negb (BIO_new_mem X) then ret false
          else
            let '(result, pem_key) := PEM_write_bio_RSAPublicKey X rsa in
            if negb (result =? 1) then ret false
            else
              let* _ := file_write file pem_key in
              ret true
      end
  end.

(** Every [return nullptr] of [PublicKeyString] constructs the returned
    [std::string] from a null pointer. *)
Definition NetworkKey_PublicKeyString : M State string :=
  let* k := key_handle in
  match k with
  | None => abort NullString
  | Some pk =>
      match pkey_rsa pk with
      | None => abort NullString
      | Some rsa =>
          if negb (BIO_new_mem X) then abort NullString
          else
            let '(result, pem_key) := PEM_write_bio_RSAPublicKey X rsa in
            if negb (result =? 1) then abort NullString
            else ret (String.string_of_list_byte (c_str pem_key))
      end
  end.

Definition NetworkKey_PublicKeyHash : M State string :=
  let* key := NetworkKey_PublicKeyString in
  if String.eqb key EmptyString then abort NullString
  else if EVP_DigestInit_ex_sha1 X <=? 0 then abort NullString
  else if EVP_DigestUpdate X key <=? 0 then abort NullString
  else
    let digest := EVP_DigestFinal X key in
    ret (foldr (fun b out => String.append (hex02 b) out) EmptyString digest).

(** [Sign(md, len, &signature, &out_size)]: the result, and what the call
    leaves in [*signature] and [*out_size]; [out_size0] is what [*out_size]
    held before the call. *)
Definition NetworkKey_Sign (md : list byte) (out_size0 : Z)
  : M State (bool * option (list byte) * Z) :=
  let* k := key_handle in
  if negb (EVP_MD_CTX_create X) then ret (false, None, out_size0)
  else if negb (EVP_DigestSignInit X k =? 1) then ret (false, None, out_size0)
  else if negb (EVP_DigestSignUpdate X k md =? 1) then ret (false, None, out_size0)
  else
    let '(r1, out_size1) := EVP_DigestSignFinal_length X k md out_size0 in
    if negb (r1 =? 1) then ret (false, None, out_size1)
    else if negb (OPENSSL_malloc X out_size1) then ret (false, None, out_size1)
    else
      let '(r2, sig, out_size2) := EVP_DigestSignFinal X k md out_size1 in
      if negb (r2 =? 1) then ret (false, None, out_size2)
      else ret (true, Some (take (Z.to_nat out_size2) sig), out_size2).

End NetworkKey.

(** ** The command queue *)

(** Modelled from the spec: [GameCommand::operator<], declared with the type
    in NetworkTypes.h, which is not among the sources.  The container is
    "ordered by tick (ties allowed)": one command is less than another when
    its tick is smaller. *)
Definition GameCommand_lt (a b : GameCommand) : bool := tick a <? tick b.

(** [std::multiset::insert(value)]: the new element goes to the upper bound
    of the elements equivalent to it, that is before the first element it is
    less than. *)
Fixpoint multiset_insert (x : GameCommand) (q : list GameCommand) : list GameCommand :=
  match q with
  | [] => [x]
  | y :: q' => if GameCommand_lt x y then x :: y :: q' else y :: multiset_insert x q'
  end.

(** Modelled from the spec: the removal loop of [DrainUpTo], which is not
    among the sources.  Commands are taken off the front of the container
    while their tick is at most [t]; the result is the commands taken and
    the commands left. *)
Fixpoint drain_front (t : Z) (q : list GameCommand) : list GameCommand * list GameCommand :=
  match q with
  | [] => ([], [])
  | c :: q' =>
      if tick c <=? t
      then let '(taken, rest) := drain_front t q' in (c :: taken, rest)
      else ([], c :: q')
  end.

Section NetworkClient.

Context (X : Externals).

Definition server_connection : M State (option NetworkConnection) :=
  gets (fun s => _serverConnection (client s)).

(** [_serverConnection->...]: a member access through the pointer. *)
Definition on_connection (u : NetworkConnection -> NetworkConnection) : M State unit :=
  let* c := server_connection in
  match c with
  | None => abort NullDereference
  | Some conn => modify (on_client (set_serverConnection (Some (u conn))))
  end.

Definition SetLastDisconnectReason (reason : rct_string_id) : M State unit :=
  on_connection (fun c =>
    mkNetworkConnection (Socket c) (AuthStatus c) (Some reason) (QueuedPackets c)).

Definition Socket_Disconnect : M State unit :=
  let* _ := on_connection (fun c =>
    mkNetworkConnection (mkTcpSocket (sock_peer (Socket c)) true)
                        (AuthStatus c) (LastDisconnectReason c) (QueuedPackets c)) in
  emit EvSocketDisconnect.

Definition set_AuthStatus (a : NETWORK_AUTH) : M State unit :=
  on_connection (fun c =>
    mkNetworkConnection (Socket c) a (LastDisconnectReason c) (QueuedPackets c)).

Definition QueuePacket (packet : NetworkPacket) : M State unit :=
  on_connection (fun c =>
    mkNetworkConnection (Socket c) (AuthStatus c) (LastDisconnectReason c)
                        (QueuedPackets c ++ [packet])).

Definition platform_file_exists (path : string) : M State bool :=
  gets (fun s => bool_decide (is_Some (files (world s) !! path))).

Definition SDL_RWFromFile_rb (path : string) : M State (option SDL_RWops) :=
  gets (fun s => match files (world s) !! path with
                 | Some f => if file_readable f then Some (file_rw f) else None
                 | None => None
                 end).

(** Mode "wb+" creates the file or empties it; the handle is the path. *)
Definition SDL_RWFromFile_wb (path : string) : M State (option string) :=
  if can_open_for_writing X path
  then let* _ := file_write path [] in ret (Some path)
  else ret None.

Definition Close : M State unit :=
  Network2_SetMode NETWORK_MODE_NONE.

Definition SetupUserKey : M State bool :=
  let keyPath := GetPrivateKeyPath X (player_name X) in
  let* present := platform_file_exists keyPath in
  if negb present then
    let* _ := NetworkKey_Generate X in
    if negb (platform_ensure_directory_exists X (GetKeysDirectory X)) then ret false
    else
      let* privkey := SDL_RWFromFile_wb keyPath in
      match privkey with
      | None => ret false
      | Some privkey =>
          let* _ := NetworkKey_SavePrivate X privkey in
          let* publicKeyHash := NetworkKey_PublicKeyHash X in
          let keyPath := GetPublicKeyPath X (player_name X) publicKeyHash in
          let* pubkey := SDL_RWFromFile_wb keyPath in
          match pubkey with
          | None => ret false
          | Some pubkey =>
              let* _ := NetworkKey_SavePublic X pubkey in
              ret true
          end
      end
  else
    let* privkey := SDL_RWFromFile_rb keyPath in
    match privkey with
    | None => ret false
    | Some f =>
        let* ok := NetworkKey_LoadPrivate X (Some f) in
        let* _ := NetworkKey_Unload in
        ret ok
    end.

Definition Begin (host : string) (port : Z) : M State bool :=
  let* _ := Close in
  let* mode := Network2_GetMode in
  let* _ := Guard_Assert (NETWORK_MODE_eqb mode NETWORK_MODE_NONE) in
  let* _ := Network2_SetMode NETWORK_MODE_CLIENT in
  let* conn := server_connection in
  let* _ := Guard_Assert (match conn with None => true | Some _ => false end) in
  let* _ := modify (on_client (set_serverConnection
              (Some (mkNetworkConnection (mkTcpSocket (Some (host, port)) false)
                                         NETWORK_AUTH_NONE None [])))) in
  let* _ := emit (EvConnectAsync host port) in
  let* _ := modify (on_client (set_status NETWORK_CLIENT_STATUS_CONNECTING)) in
  let* _ := modify (on_client (set_lastConnectStatus SOCKET_STATUS_CLOSED)) in
  let* _ := emit EvChatStartLogging in
  let* ok := SetupUserKey in
  if negb ok then ret false else ret true.

Definition SendAuthentication (playerName password pubkey : string)
    (signature : option (list byte)) (sigsize : Z) : M State unit :=
  let* _ := Guard_Assert (sigsize <=? UINT32_MAX) in
  let packet :=
    [ PCommand NETWORK_COMMAND_AUTH;
      PString (NETWORK_STREAM_ID X);
      PString playerName;
      PString password;
      PString pubkey;
      PUint32 (to_uint32 sigsize);
      PRaw signature sigsize ] in
  let* _ := set_AuthStatus NETWORK_AUTH_REQUESTED in
  QueuePacket packet.

Definition LoadPrivateKey : M State bool :=
  let keyPath := GetPrivateKeyPath X (player_name X) in
  let* present := platform_file_exists keyPath in
  if present then
    let* privkey := SDL_RWFromFile_rb keyPath in
    let* result := NetworkKey_LoadPrivate X privkey in
    ret result
  else
    ret false.

(** [challenge] is the [challengeSize] bytes the argument points at. *)
Definition HandleChallenge (challenge : list byte) : M State unit :=
  let* _ := modify (on_client (set_challenge challenge)) in
  let* pubkey := NetworkKey_PublicKeyString X in
  let* loaded := LoadPrivateKey in
  if negb loaded then
    let* _ := SetLastDisconnectReason STR_MULTIPLAYER_VERIFICATION_FAILURE in
    Socket_Disconnect
  else
    let* md := gets (fun s => _challenge (client s)) in
    let* (result, signature, sigsize) := NetworkKey_Sign X md (indeterminate_size X) in
    if negb result then
      let* _ := SetLastDisconnectReason STR_MULTIPLAYER_VERIFICATION_FAILURE in
      Socket_Disconnect
    else
      let* _ := NetworkKey_Unload in
      SendAuthentication (player_name X) "" pubkey signature sigsize.

Definition SendPassword (password : string) : M State unit :=
  let* pubkey := NetworkKey_PublicKeyString X in
  let* loaded := LoadPrivateKey in
  if negb loaded then ret tt
  else
    let* md := gets (fun s => _challenge (client s)) in
    let* (_, signature, sigsize) := NetworkKey_Sign X md (indeterminate_size X) in
    let* _ := NetworkKey_Unload in
    SendAuthentication (player_name X) password pubkey signature sigsize.

Definition RequestGameInfo : M State unit :=
  QueuePacket [PCommand NETWORK_COMMAND_GAMEINFO].

Definition SendPing : M State unit :=
  QueuePacket [PCommand NETWORK_COMMAND_PING].

Definition LoadMap (sv6Data : list byte) : M State unit :=
  let* ticks := gets (fun s => gCurrentTicks (world s)) in
  let* _ := emit (EvGameLoadNetwork sv6Data) in
  let '(loaded, ticks') := game_load_network X sv6Data ticks in
  let* _ := modify (on_world (set_gCurrentTicks ticks')) in
  if loaded then
    let* _ := emit EvGameLoadInit in
    let* _ := modify (on_world (set_gCurrentTicks (game_load_init X ticks'))) in
    let* _ := modify (on_client (set_gameCommandQueue [])) in
    let* now := gets (fun s => gCurrentTicks (world s)) in
    let* _ := modify (on_client (set_serverTick now)) in
    let* _ := modify (on_client (set_serverSrand0Tick 0)) in
    let* _ := modify (on_client (set_desynchronised false)) in
    emit EvChatShowHelp
  else
    emit EvGameLoadOrQuit.

(** [mapData] is the [mapDataSize] bytes the argument points at.  The body
    size is [mapDataSize - headerSize] in [size_t]; a negative number here
    stands for the wrapped difference. *)
Definition ProcessMap (mapData : list byte) : M State unit :=
  if String_Equals X mapData (SV6_HEADER_ZLIB_COMPRESSED X) then
    let headerSize := (String_SizeOf X (SV6_HEADER_ZLIB_COMPRESSED X) + 1)%nat in
    let bufferBody := drop headerSize mapData in
    let bufferBodySize := Z.of_nat (length mapData) - Z.of_nat headerSize in
    let* _ := emit (EvZlibInflate bufferBody bufferBodySize) in
    match util_zlib_inflate X bufferBody bufferBodySize with
    | None => Close
    | Some sv6Data => LoadMap sv6Data
    end
  else
    LoadMap mapData.

(** [Memory::Copy(_mapBuffer.data() + offset, dataChunk, dataChunkSize)].
    A chunk of size 0 copies nothing, wherever its offset lies.  Any other
    chunk overwrites the buffer from [offset] on.  The code makes no bounds
    check: a chunk that does not fit is written past the end of the buffer,
    which is undefined behaviour.  The model follows the program up to that
    write and no further; it does not say what happens after it. *)
Definition Memory_Copy_mapBuffer (offset : nat) (dataChunk : list byte) : M State unit :=
  match dataChunk with
  | [] => ret tt
  | _ :: _ =>
      let* buffer := gets (fun s => _mapBuffer (client s)) in
      if (length buffer <? offset + length dataChunk)%nat then abort OutOfBounds
      else modify (on_client (set_mapBuffer
             (take offset buffer ++ dataChunk ++ drop (offset + length dataChunk) buffer)))
  end.

(** [dataChunk] is the [dataChunkSize] bytes the argument points at.  Sizes
    are natural numbers: a sum [offset + dataChunkSize] too large for a
    [size_t] belongs to a chunk that is not empty and does not fit in the
    buffer, where the model stops at the copy. *)
Definition ReceiveMap (totalDataSize offset : nat) (dataChunk : list byte) : M State unit :=
  let dataChunkSize := length dataChunk in
  let* _ := emit (EvNetworkStatusOpen
                    (to_uint32 (Z.of_nat ((offset + dataChunkSize) / 1024)))
                    (to_uint32 (Z.of_nat (totalDataSize / 1024)))) in
  let* buffer := gets (fun s => _mapBuffer (client s)) in
  let* _ := if (length buffer <? totalDataSize)%nat
            then modify (on_client (set_mapBuffer (resize totalDataSize x00 buffer)))
            else ret tt in
  let* _ := Memory_Copy_mapBuffer offset dataChunk in
  if (offset + dataChunkSize =? totalDataSize)%nat then
    let* _ := emit EvNetworkStatusClose in
    let* buffer := gets (fun s => _mapBuffer (client s)) in
    let* _ := ProcessMap buffer in
    (* Discard map buffer data (free the memory) *)
    modify (on_client (set_mapBuffer []))
  else ret tt.

Definition ReceiveChatMessage (message : string) : M State unit :=
  emit (EvChatShowMessage message).

Definition RecieveGameCommand (gameCommand : GameCommand) : M State unit :=
  modify (on_client (fun c =>
    set_gameCommandQueue (multiset_insert gameCommand (_gameCommandQueue c)) c)).

Definition RecieveTick (tick srand0 : Z) : M State unit :=
  let* _ := modify (on_client (set_serverTick tick)) in
  let* anchor := gets (fun s => _serverSrand0Tick (client s)) in
  if anchor =? 0 then
    let* _ := modify (on_client (set_serverSrand0 srand0)) in
    modify (on_client (set_serverSrand0Tick tick))
  else ret tt.

(** Modelled from the spec: [DrainUpTo(tick)], the work of the simulation
    driver, which is not among the sources.  It "removes and returns, in
    tick order, all commands with target tick <= the simulation's current
    tick". *)
Definition DrainUpTo (t : Z) : M State (list GameCommand) :=
  let* q := gets (fun s => _gameCommandQueue (client s)) in
  let '(taken, rest) := drain_front t q in
  let* _ := modify (on_client (set_gameCommandQueue rest)) in
  ret taken.

End NetworkClient.

(** ** Derived notions used in the statements *)

(** The command queue after the commands of [arrivals] were received in
    that order, starting from [q]. *)
Definition receive_all (arrivals : list GameCommand) (q : list GameCommand)
  : list GameCommand :=
  foldl (fun q c => multiset_insert c q) q arrivals.

Definition tick_le (a b : GameCommand) : Prop := tick a <= tick b.

Definition has_tick (v : Z) (c : GameCommand) : bool := tick c =? v.

(** Running a list of methods one after the other. *)
Fixpoint sequence_ {S} (cs : list (M S unit)) : M S unit :=
  match cs with
  | [] => ret tt
  | c :: cs' => let* _ := c in sequence_ cs'
  end.

(** The state [Begin] has built when it reaches key setup: the mode flag is
    "client", a new connection is connecting to the host, chat logging has
    started. *)
Definition connecting_state (host : string) (port : Z) (s : State) : State :=
  mkState
    (set_log (log (world s) ++ [EvConnectAsync host port; EvChatStartLogging])
       (set_gNetworkMode NETWORK_MODE_CLIENT (world s)))
    (set_lastConnectStatus SOCKET_STATUS_CLOSED
       (set_status NETWORK_CLIENT_STATUS_CONNECTING
          (set_serverConnection
             (Some (mkNetworkConnection (mkTcpSocket (Some (host, port)) false)
                                        NETWORK_AUTH_NONE None []))
             (client s)))).

(** What [ReceiveMap] does to the buffer before it looks for completion:
    the buffer grown to the total size when it is shorter, then the chunk
    written at its offset. *)
Definition grown (totalDataSize : nat) (buffer : list byte) : list byte :=
  if (length buffer <? totalDataSize)%nat then resize totalDataSize x00 buffer else buffer.

Definition overwritten (offset : nat) (dataChunk buffer : list byte) : list byte :=
  take offset buffer ++ dataChunk ++ drop (offset + length dataChunk) buffer.

Definition progress_event (totalDataSize offset : nat) (dataChunk : list byte) : Event :=
  EvNetworkStatusOpen
    (to_uint32 (Z.of_nat ((offset + length dataChunk) / 1024)))
    (to_uint32 (Z.of_nat (totalDataSize / 1024))).

Definition chunk_stored (totalDataSize offset : nat) (dataChunk : list byte) (s : State)
  : State :=
  mkState
    (set_log (log (world s) ++ [progress_event totalDataSize offset dataChunk]) (world s))
    (set_mapBuffer (overwritten offset dataChunk (grown totalDataSize (_mapBuffer (client s))))
       (client s)).

(** The completion branch of [ReceiveMap], with the buffer it hands to
    [ProcessMap]. *)
Definition complete_transfer (X : Externals) (buffer : list byte) : M State unit :=
  let* _ := emit EvNetworkStatusClose in
  let* _ := ProcessMap X buffer in
  modify (on_client (set_mapBuffer [])).

(** A step that changes nothing but the key store, the log and the files. *)
Definition key_step (s s' : State) : Prop :=
  exists k l fs,
    s' = mkState (mkWorld (gNetworkMode (world s)) (gCurrentTicks (world s)) fs l)
                 (set_key k (client s)).

Definition key_only {A} (c : M State A) : Prop :=
  forall s, key_step s (final_state (c s)).

(** The key store holds no key. *)
Definition unloaded (s : State) : Prop := m_key (_key (client s)) = None.

(** ** Concrete inputs

    One instance of the external functions and a few states, for evaluating
    the model. *)

Module Demo.

Fixpoint bytes_eqb (a b : list byte) : bool :=
  match a, b with
  | [], [] => true
  | x :: a', y :: b' => Byte.eqb x y && bytes_eqb a' b'
  | _, _ => false
  end.

Definition rsa : RSA := mkRSA 3233 17 (Some 2753).
Definition private_pem : list byte := String.list_byte_of_string "PRIVATE KEY".
Definition public_pem : list byte := String.list_byte_of_string "PUBLIC KEY".
Definition keys_directory : string := "keys".
Definition private_key_path : string := "keys/Guest.privkey".

(** [can_sign]: whether [EVP_MD_CTX_create] succeeds in [Sign];
    [directory_ok]: whether the keys directory can be made. *)
Definition externals (can_sign directory_ok : bool) : Externals := {|
  player_name := "Guest";
  GetPrivateKeyPath := fun name => String.append "keys/" (String.append name ".privkey");
  GetPublicKeyPath := fun name hash =>
    String.append "keys/" (String.append name (String.append "-" (String.append hash ".pubkey")));
  GetKeysDirectory := keys_directory;
  NETWORK_STREAM_ID := "0.0.5.0";
  SV6_HEADER_ZLIB_COMPRESSED := String.list_byte_of_string "SV6Z";
  platform_ensure_directory_exists := fun _ => directory_ok;
  can_open_for_writing := fun _ => true;
  indeterminate_size := 0;
  EVP_PKEY_CTX_set_rsa_keygen_bits := fun _ => 1;
  EVP_PKEY_keygen_init := 1;
  EVP_PKEY_keygen := Some (mkEVP_PKEY (Some rsa));
  BIO_new_mem_buf := fun _ => true;
  BIO_new_mem := true;
  PEM_read_bio_RSAPrivateKey := fun pem =>
    match pem with [] => None | _ :: _ => Some rsa end;
  PEM_read_bio_RSAPublicKey := fun pem =>
    match pem with [] => None | _ :: _ => Some (mkRSA 3233 17 None) end;
  RSA_check_key := fun r =>
    match r with
    | Some (mkRSA _ _ (Some _)) => 1
    | _ => 0
    end;
  PEM_write_bio_RSAPrivateKey := fun _ => (1, private_pem);
  PEM_write_bio_RSAPublicKey := fun _ => (1, public_pem);
  EVP_DigestInit_ex_sha1 := 1;
  EVP_DigestUpdate := fun _ => 1;
  EVP_DigestFinal := fun _ => [Byte.xab; Byte.x01];
  EVP_MD_CTX_create := can_sign;
  EVP_DigestSignInit := fun k => match k with Some _ => 1 | None => 0 end;
  EVP_DigestSignUpdate := fun _ _ => 1;
  EVP_DigestSignFinal_length := fun _ _ _ => (1, 2);
  OPENSSL_malloc := fun _ => true;
  EVP_DigestSignFinal := fun _ md _ => (1, [Byte.x53; Byte.x47], 2);
  String_Equals := fun data header =>
    bytes_eqb (c_str data) header;
  String_SizeOf := fun header => length header;
  util_zlib_inflate := fun body _ => Some body;
  game_load_network := fun snapshot ticks =>
    match snapshot with [] => (false, ticks) | _ :: _ => (true, 0) end;
  game_load_init := fun ticks => ticks
|}.

Definition key_file : File :=
  mkFile (mkRWops (Z.of_nat (length private_pem)) private_pem) true.

Definition no_server_info : NetworkServerInfo :=
  mkNetworkServerInfo None None None None None.

(** A client as its constructor leaves it, holding the key [key]. *)
Definition fresh_client (key : option EVP_PKEY) : NetworkClient := {|
  _status := NETWORK_CLIENT_STATUS_NONE;
  _lastConnectStatus := SOCKET_STATUS_CLOSED;
  _serverConnection := None;
  _key := mkNetworkKey (Some RsaKeygenContext) key;
  _challenge := [];
  _mapBuffer := [];
  _serverTick := 0;
  _serverSrand0 := 0;
  _serverSrand0Tick := 0;
  _desynchronised := false;
  _gameCommandQueue := [];
  _serverInfo := no_server_info;
  _playerId := 255
|}.

Definition world_with (mode : NETWORK_MODE) (fs : gmap string File) : World :=
  mkWorld mode 0 fs [].

(** No connection of this client, the private key file on disk. *)
Definition idle (mode : NETWORK_MODE) : State :=
  mkState (world_with mode {[ private_key_path := key_file ]}) (fresh_client None).

Definition connection : NetworkConnection :=
  mkNetworkConnection (mkTcpSocket (Some ("example.test", 11753)) false)
                      NETWORK_AUTH_NONE None [].

Definition challenge : list byte := [Byte.x01; Byte.x02; Byte.x03; Byte.x04].

(** A connected client in the middle of a session: the key of a first
    connect is in memory, a challenge is stored, half a map has arrived and
    one command is queued. *)
Definition in_session : State :=
  mkState
    (world_with NETWORK_MODE_CLIENT {[ private_key_path := key_file ]})
    (set_gameCommandQueue [mkGameCommand 7 0 0 0 0 0 0 0 0 0]
       (set_mapBuffer [Byte.x41; Byte.x42]
          (set_challenge challenge
             (set_serverConnection (Some connection)
                (set_status NETWORK_CLIENT_STATUS_CONNECTING
                   (fresh_client (Some (mkEVP_PKEY (Some rsa))))))))).

(** The first run on a machine: no key file yet. *)
Definition first_run : State :=
  mkState (world_with NETWORK_MODE_NONE ∅) (fresh_client None).

Definition host : string := "example.test".
Definition port : Z := 11753.

(** A command for tick [t]; [n] tells commands of one tick apart. *)
Definition command (t n : Z) : GameCommand := mkGameCommand t n 0 0 0 0 0 0 0 0.

End Demo.


(** ** Accessors of the client *)

Definition GetAuthStatus : M State NETWORK_AUTH :=
  let* c := server_connection in
  match c with
  | None => abort NullDereference
  | Some conn => ret (AuthStatus conn)
  end.

Definition GetConnectionStatus : M State NETWORK_CLIENT_STATUS :=
  gets (fun s => _status (client s)).

Definition GetServerTick : M State Z :=
  gets (fun s => _serverTick (client s)).

Definition GetPlayerId : M State Z :=
  gets (fun s => _playerId (client s)).

(** ** Further derived notions *)

(** The bytes [LoadPrivate] and [LoadPublic] hand to the PEM parser. *)
Definition key_file_bytes (f : SDL_RWops) : list byte :=
  take (Z.to_nat (rw_size f)) (rw_data f).

(** What [LoadPrivate] makes of a private key file, by the tests in the
    order the code makes them: it returns failure, it hands the null pointer
    of a failed parse to [RSA_check_key], or it puts the parsed key into the
    key store and returns success. *)
Inductive LoadOutcome : Type :=
  | LoadRefused
  | LoadNullKey
  | LoadInstalled (rsa : RSA).

Definition private_key_outcome (X : Externals) (f : SDL_RWops) : LoadOutcome :=
  if rw_size f =? -1 then LoadRefused
  else if rw_size f >? KEY_SIZE_CEILING then LoadRefused
  else if negb (BIO_new_mem_buf X (key_file_bytes f)) then LoadRefused
  else
    match PEM_read_bio_RSAPrivateKey X (key_file_bytes f) with
    | None => LoadNullKey
    | Some rsa =>
        if RSA_check_key X (Some rsa) =? 0 then LoadRefused else LoadInstalled rsa
    end.

Definition private_key_accepted (outcome : LoadOutcome) : bool :=
  match outcome with
  | LoadInstalled _ => true
  | _ => false
  end.

(** The text [PublicKeyHash] builds from a digest. *)
Definition hex_string (digest : list byte) : string :=
  foldr (fun b out => String.append (hex02 b) out) EmptyString digest.

(** Reading the text of [PublicKeyHash] back: the value of a hex digit and
    the bytes of a text of digit pairs. *)
Definition hex_value (c : Ascii.ascii) : option N :=
  let n := Ascii.N_of_ascii c in
  if ((48 <=? n) && (n <=? 57))%N then Some (n - 48)%N
  else if ((97 <=? n) && (n <=? 102))%N then Some (n - 87)%N
  else None.

Fixpoint unhex_string (text : string) : option (list byte) :=
  match text with
  | EmptyString => Some []
  | String hi (String lo rest) =>
      match hex_value hi, hex_value lo with
      | Some h, Some l =>
          match Byte.of_N (h * 16 + l)%N, unhex_string rest with
          | Some b, Some bytes => Some (b :: bytes)
          | _, _ => None
          end
      | _, _ => None
      end
  | String _ EmptyString => None
  end.

(** The chunks of a transfer fed to [ReceiveMap] one after the other, each
    at the offset where the one before it ended. *)
Fixpoint receive_chunks (X : Externals) (totalDataSize offset : nat)
    (chunks : list (list byte)) : M State unit :=
  match chunks with
  | [] => ret tt
  | dataChunk :: rest =>
      let* _ := ReceiveMap X totalDataSize offset dataChunk in
      receive_chunks X totalDataSize (offset + length dataChunk) rest
  end.

(** The progress messages [receive_chunks] opens. *)
Fixpoint progress_events (totalDataSize offset : nat) (chunks : list (list byte))
  : list Event :=
  match chunks with
  | [] => []
  | dataChunk :: rest =>
      progress_event totalDataSize offset dataChunk ::
      progress_events totalDataSize (offset + length dataChunk) rest
  end.

(** The buffer of a transfer of [T] bytes of which the bytes [received] have
    arrived in offset order: still empty when nothing was fed, otherwise the
    bytes followed by zeroes up to [T]. *)
Definition buffer_holds (T : nat) (received buffer : list byte) : Prop :=
  (buffer = [] /\ received = []) \/
  buffer = received ++ replicate (T - length received) x00.

(** A step that changes nothing but the key store and the log. *)
Definition store_step (s s' : State) : Prop :=
  exists k l,
    s' = mkState (set_log l (world s))
                 (set_key (mkNetworkKey (m_ctx (_key (client s))) k) (client s)).

Definition store_only {A} (c : M State A) : Prop :=
  forall s, store_step s (final_state (c s)).

(** ** More concrete inputs *)

Module DemoMore.

(** The external functions of [Demo], with a zlib that fails to inflate. *)
Definition externals_corrupt_zlib : Externals :=
  let X := Demo.externals true true in
  mkExternals
    (player_name X) (GetPrivateKeyPath X) (GetPublicKeyPath X) (GetKeysDirectory X)
    (NETWORK_STREAM_ID X) (SV6_HEADER_ZLIB_COMPRESSED X)
    (platform_ensure_directory_exists X) (can_open_for_writing X) (indeterminate_size X)
    (EVP_PKEY_CTX_set_rsa_keygen_bits X) (EVP_PKEY_keygen_init X) (EVP_PKEY_keygen X)
    (BIO_new_mem_buf X) (BIO_new_mem X)
    (PEM_read_bio_RSAPrivateKey X) (PEM_read_bio_RSAPublicKey X) (RSA_check_key X)
    (PEM_write_bio_RSAPrivateKey X) (PEM_write_bio_RSAPublicKey X)
    (EVP_DigestInit_ex_sha1 X) (EVP_DigestUpdate X) (EVP_DigestFinal X)
    (EVP_MD_CTX_create X) (EVP_DigestSignInit X) (EVP_DigestSignUpdate X)
    (EVP_DigestSignFinal_length X) (OPENSSL_malloc X) (EVP_DigestSignFinal X)
    (String_Equals X) (String_SizeOf X)
    (fun _ _ => None)
    (game_load_network X) (game_load_init X).

(** The external functions of [Demo], with [RSA_check_key] replaced. *)
Definition externals_with_check (check : option RSA -> Z) : Externals :=
  let X := Demo.externals true true in
  mkExternals
    (player_name X) (GetPrivateKeyPath X) (GetPublicKeyPath X) (GetKeysDirectory X)
    (NETWORK_STREAM_ID X) (SV6_HEADER_ZLIB_COMPRESSED X)
    (platform_ensure_directory_exists X) (can_open_for_writing X) (indeterminate_size X)
    (EVP_PKEY_CTX_set_rsa_keygen_bits X) (EVP_PKEY_keygen_init X) (EVP_PKEY_keygen X)
    (BIO_new_mem_buf X) (BIO_new_mem X)
    (PEM_read_bio_RSAPrivateKey X) (PEM_read_bio_RSAPublicKey X) check
    (PEM_write_bio_RSAPrivateKey X) (PEM_write_bio_RSAPublicKey X)
    (EVP_DigestInit_ex_sha1 X) (EVP_DigestUpdate X) (EVP_DigestFinal X)
    (EVP_MD_CTX_create X) (EVP_DigestSignInit X) (EVP_DigestSignUpdate X)
    (EVP_DigestSignFinal_length X) (OPENSSL_malloc X) (EVP_DigestSignFinal X)
    (String_Equals X) (String_SizeOf X)
    (util_zlib_inflate X)
    (game_load_network X) (game_load_init X).

(** [RSA_check_key] meets an error while it checks and returns -1. *)
Definition externals_check_error : Externals :=
  externals_with_check (fun _ => -1).

(** The private key file is there but holds nothing that parses. *)
Definition empty_key_file : File := mkFile (mkRWops 0 []) true.

Definition empty_key : State :=
  mkState (Demo.world_with NETWORK_MODE_NONE {[ Demo.private_key_path := empty_key_file ]})
          (Demo.fresh_client None).

(** The private key file is there but does not open for reading. *)
Definition locked_key_file : File :=
  mkFile (file_rw Demo.key_file) false.

Definition locked_key : State :=
  mkState (Demo.world_with NETWORK_MODE_NONE {[ Demo.private_key_path := locked_key_file ]})
          (Demo.fresh_client None).

(** A first run on a client whose key generation context could not be
    made. *)
Definition no_keygen_context : State :=
  mkState (Demo.world_with NETWORK_MODE_NONE ∅)
          (set_key (mkNetworkKey None None) (Demo.fresh_client None)).

(** A compressed map: the header, its terminator and a body of two bytes. *)
Definition compressed_map : list byte :=
  String.list_byte_of_string "SV6Z" ++ [x00; Byte.x78; Byte.x9c].

Definition signature : list byte := [Byte.x53; Byte.x47].

End DemoMore.

(** ** Properties *)

Section KeySteps.

Lemma key_step_refl s : key_step s s.
Proof.
  destruct s as [[m t fs l] c]. exists (_key c), l, fs.
  destruct c; reflexivity.
Qed.

Lemma key_step_trans s1 s2 s3 : key_step s1 s2 -> key_step s2 s3 -> key_step s1 s3.
Proof.
  intros (k1 & l1 & f1 & ->) (k2 & l2 & f2 & ->).
  exists k2, l2, f2. destruct s1 as [w c]; destruct c; reflexivity.
Qed.

Lemma key_only_ret {A} (a : A) : key_only (ret a).
Proof. intros s. apply key_step_refl. Qed.

Lemma key_only_abort {A} f : key_only (@abort State A f).
Proof. intros s. apply key_step_refl. Qed.

Lemma key_only_bind {A B} (c : M State A) (k : A -> M State B) :
  key_only c -> (forall a, key_only (k a)) -> key_only (bind c k).
Proof.
  intros Hc Hk s. unfold bind. specialize (Hc s).
  destruct (c s) as [a s'|f s']; simpl in *; [|exact Hc].
  eapply key_step_trans; [exact Hc | apply Hk].
Qed.

Lemma key_only_gets {A} (p : State -> A) : key_only (gets p).
Proof. intros s. apply key_step_refl. Qed.

Lemma key_only_emit e : key_only (emit e).
Proof.
  intros [[m t fs l] c]. exists (_key c), (l ++ [e]), fs.
  destruct c; reflexivity.
Qed.

Lemma key_only_put_m_key k : key_only (put_m_key k).
Proof.
  intros [[m t fs l] c]. exists (mkNetworkKey (m_ctx (_key c)) k), l, fs.
  destruct c; reflexivity.
Qed.

Lemma key_only_file_write path bytes : key_only (file_write path bytes).
Proof.
  intros [[m t fs l] c]. eexists (_key c), l, _.
  destruct c; reflexivity.
Qed.

End KeySteps.

(** Breaks a method into its primitive steps, each of which touches the key
    store, the log or the files only. *)
Ltac key_only_tac :=
  repeat first
    [ apply key_only_ret
    | apply key_only_abort
    | apply key_only_gets
    | apply key_only_emit
    | apply key_only_put_m_key
    | apply key_only_file_write
    | apply key_only_bind; [|intros]
    | match goal with
      | |- key_only (if ?b then _ else _) => destruct b
      | |- key_only (match ?x with _ => _ end) => destruct x
      | |- key_only (let '(_, _) := ?x in _) => destruct x
      end ].

Section ClientProperties.

Context (X : Externals).

Lemma key_only_Unload : key_only NetworkKey_Unload.
Proof. unfold NetworkKey_Unload, key_handle, EVP_PKEY_free. key_only_tac. Qed.

Lemma key_only_Generate : key_only (NetworkKey_Generate X).
Proof. unfold NetworkKey_Generate. key_only_tac. Qed.

Lemma key_only_LoadPrivate file : key_only (NetworkKey_LoadPrivate X file).
Proof.
  unfold NetworkKey_LoadPrivate, read_whole, key_handle, EVP_PKEY_free.
  key_only_tac.
Qed.

Lemma key_only_SavePrivate file : key_only (NetworkKey_SavePrivate X file).
Proof. unfold NetworkKey_SavePrivate, key_handle. key_only_tac. Qed.

Lemma key_only_SavePublic file : key_only (NetworkKey_SavePublic X file).
Proof. unfold NetworkKey_SavePublic, key_handle. key_only_tac. Qed.

Lemma key_only_PublicKeyString : key_only (NetworkKey_PublicKeyString X).
Proof. unfold NetworkKey_PublicKeyString, key_handle. key_only_tac. Qed.

Lemma key_only_PublicKeyHash : key_only (NetworkKey_PublicKeyHash X).
Proof.
  unfold NetworkKey_PublicKeyHash.
  apply key_only_bind; [apply key_only_PublicKeyString | intros; key_only_tac].
Qed.

Lemma key_only_SDL_RWFromFile_wb path : key_only (SDL_RWFromFile_wb X path).
Proof. unfold SDL_RWFromFile_wb. key_only_tac. Qed.

Lemma key_only_SetupUserKey : key_only (SetupUserKey X).
Proof.
  unfold SetupUserKey, platform_file_exists, SDL_RWFromFile_rb.
  repeat first
    [ apply key_only_Unload | apply key_only_Generate | apply key_only_LoadPrivate
    | apply key_only_SavePrivate | apply key_only_SavePublic
    | apply key_only_PublicKeyHash | apply key_only_SDL_RWFromFile_wb
    | progress key_only_tac ].
Qed.

Lemma key_only_LoadPrivateKey : key_only (LoadPrivateKey X).
Proof.
  unfold LoadPrivateKey, platform_file_exists, SDL_RWFromFile_rb.
  repeat first [ apply key_only_LoadPrivate | progress key_only_tac ].
Qed.

End ClientProperties.

Section Lifecycle.

Context (X : Externals).

Lemma bind_ret_bool (c : M State bool) s :
  bind c (fun ok => if negb ok then ret false else ret true) s = c s.
Proof.
  unfold bind. destruct (c s) as [[|] s'|f s']; reflexivity.
Qed.

Lemma key_step_mode s s' : key_step s s' -> gNetworkMode (world s') = gNetworkMode (world s).
Proof. intros (k & l & fs & ->). reflexivity. Qed.

Lemma key_step_connection s s' :
  key_step s s' -> _serverConnection (client s') = _serverConnection (client s).
Proof. intros (k & l & fs & ->). destruct s as [w []]; reflexivity. Qed.

Lemma key_step_status s s' : key_step s s' -> _status (client s') = _status (client s).
Proof. intros (k & l & fs & ->). destruct s as [w []]; reflexivity. Qed.

Lemma Begin_unfold host port s :
  Begin X host port s =
  match _serverConnection (client s) with
  | Some _ => Abort GuardFailed (on_world (set_gNetworkMode NETWORK_MODE_CLIENT) s)
  | None => SetupUserKey X (connecting_state host port s)
  end.
Proof.
  destruct s as [[m t fs l] c]. destruct c as [a1 a2 [conn|] a4 a5 a6 a7 a8 a9 a10 a11 a12 a13].
  - reflexivity.
  - unfold Begin. generalize (SetupUserKey X). intros setup.
    cbn. rewrite bind_ret_bool.
    unfold connecting_state, on_world, on_client. cbn. rewrite <- app_assoc. reflexivity.
Qed.

(** C9.  [Unload] leaves the key store without a key and a second [Unload]
    right after it changes nothing; [Close] always returns, and a second
    [Close] right after it changes nothing. *)
Theorem Unload_and_Close_idempotent (s : State) :
  (exists s1, NetworkKey_Unload s = Ret tt s1 /\ unloaded s1 /\
              NetworkKey_Unload s1 = Ret tt s1) /\
  (exists s1, Close s = Ret tt s1 /\ Close s1 = Ret tt s1).
Proof.
  split.
  - destruct s as [w c]. destruct c as [a1 a2 a3 [ctx [pk|]] a5 a6 a7 a8 a9 a10 a11 a12 a13];
      eexists; repeat split; reflexivity.
  - destruct s as [[m t fs l] c]. eexists; split; reflexivity.
Qed.

(** C5, as amended.  [Close] sets the network-mode flag to "none" and
    changes nothing else: every field of the client, the challenge, the map
    buffer and the command queue among them, and the files are as before. *)
Theorem Close_only_clears_mode (s : State) :
  Close s = Ret tt (mkState (set_gNetworkMode NETWORK_MODE_NONE (world s)) (client s)).
Proof. reflexivity. Qed.

(** C5, the claim as stated fails: after [Close] on a client in the middle
    of a session, the challenge, the map buffer and the command queue are
    what they were, none of them empty. *)
Lemma Close_keeps_session_data :
  exists s', Close Demo.in_session = Ret tt s' /\
    _challenge (client s') = Demo.challenge /\
    _challenge (client s') <> [] /\
    _mapBuffer (client s') <> [] /\
    _gameCommandQueue (client s') <> [].
Proof.
  eexists. split; [reflexivity|]. cbn. repeat split; discriminate.
Qed.

(** C1, as amended.  With the network-mode flag set, [Begin] does not fail
    fast.  Its call of [Close] clears the flag, so the guard on the mode
    passes, and the flag becomes "client".  A client that already holds a
    connection object then fails the guard on [_serverConnection], which it
    reaches with its own fields unchanged; a client without one goes on to
    connect and returns what key setup returns, with the flag still
    "client". *)
Theorem Begin_with_mode_set (host : string) (port : Z) (s : State) :
  gNetworkMode (world s) <> NETWORK_MODE_NONE ->
  match _serverConnection (client s) with
  | Some _ =>
      Begin X host port s =
      Abort GuardFailed (mkState (set_gNetworkMode NETWORK_MODE_CLIENT (world s)) (client s))
  | None =>
      Begin X host port s = SetupUserKey X (connecting_state host port s) /\
      gNetworkMode (world (final_state (Begin X host port s))) = NETWORK_MODE_CLIENT
  end.
Proof.
  intros _. rewrite Begin_unfold.
  destruct (_serverConnection (client s)) as [conn|]; [reflexivity|].
  split; [reflexivity|].
  rewrite (key_step_mode _ _ (key_only_SetupUserKey X (connecting_state host port s))).
  reflexivity.
Qed.

(** C4, as amended.  When key setup fails, [Begin] returns failure and the
    network-mode flag is left set to "client": the connection object stays
    allocated and the status stays "connecting". *)
Theorem Begin_key_setup_failure (host : string) (port : Z) (s s' : State) :
  _serverConnection (client s) = None ->
  SetupUserKey X (connecting_state host port s) = Ret false s' ->
  Begin X host port s = Ret false s' /\
  gNetworkMode (world s') = NETWORK_MODE_CLIENT /\
  _status (client s') = NETWORK_CLIENT_STATUS_CONNECTING /\
  _serverConnection (client s') <> None.
Proof.
  intros Hconn Hsetup. rewrite Begin_unfold, Hconn. split; [exact Hsetup|].
  pose proof (key_only_SetupUserKey X (connecting_state host port s)) as Hk.
  rewrite Hsetup in Hk. simpl in Hk.
  rewrite (key_step_mode _ _ Hk), (key_step_status _ _ Hk), (key_step_connection _ _ Hk).
  destruct s as [w []]. cbn. repeat split; discriminate.
Qed.

End Lifecycle.

(** C1, the claim as stated fails: a server is active in the process (the
    flag is "server"), the client holds no connection of its own and its key
    file is in place.  [Begin] returns success, the flag is "client" and the
    client is connecting. *)
Lemma Begin_second_connection_succeeds :
  gNetworkMode (world (Demo.idle NETWORK_MODE_SERVER)) = NETWORK_MODE_SERVER /\
  exists s',
    Begin (Demo.externals true true) Demo.host Demo.port (Demo.idle NETWORK_MODE_SERVER)
      = Ret true s' /\
    gNetworkMode (world s') = NETWORK_MODE_CLIENT /\
    _status (client s') = NETWORK_CLIENT_STATUS_CONNECTING /\
    _serverConnection (client s') <> None.
Proof.
  split; [reflexivity|]. eexists. split; [vm_compute; reflexivity|].
  cbn. repeat split; discriminate.
Qed.

Lemma Begin_with_mode_set_witness :
  Begin (Demo.externals true true) Demo.host Demo.port (Demo.idle NETWORK_MODE_SERVER)
    = SetupUserKey (Demo.externals true true)
        (connecting_state Demo.host Demo.port (Demo.idle NETWORK_MODE_SERVER)) /\
  gNetworkMode (world (final_state
     (Begin (Demo.externals true true) Demo.host Demo.port (Demo.idle NETWORK_MODE_SERVER))))
    = NETWORK_MODE_CLIENT.
Proof.
  apply (Begin_with_mode_set (Demo.externals true true) Demo.host Demo.port
           (Demo.idle NETWORK_MODE_SERVER)).
  simpl. discriminate.
Defined.

(** C4, the claim as stated fails: on a first run the keys directory cannot
    be made, key setup fails, [Begin] returns failure and the flag is
    "client", not "none". *)
Lemma Begin_failure_leaves_mode_set :
  exists s',
    Begin (Demo.externals true false) Demo.host Demo.port Demo.first_run = Ret false s' /\
    gNetworkMode (world s') = NETWORK_MODE_CLIENT /\
    gNetworkMode (world s') <> NETWORK_MODE_NONE.
Proof.
  eexists. split; [vm_compute; reflexivity|]. cbn. split; [reflexivity|discriminate].
Qed.

Lemma Begin_key_setup_failure_witness :
  let s' := final_state (SetupUserKey (Demo.externals true false)
                           (connecting_state Demo.host Demo.port Demo.first_run)) in
  Begin (Demo.externals true false) Demo.host Demo.port Demo.first_run = Ret false s' /\
  gNetworkMode (world s') = NETWORK_MODE_CLIENT /\
  _status (client s') = NETWORK_CLIENT_STATUS_CONNECTING /\
  _serverConnection (client s') <> None.
Proof.
  apply (Begin_key_setup_failure (Demo.externals true false) Demo.host Demo.port
           Demo.first_run).
  - reflexivity.
  - vm_compute. reflexivity.
Defined.

(** *** The command queue *)

Section CommandQueue.

Lemma multiset_insert_perm x q : Permutation (x :: q) (multiset_insert x q).
Proof.
  induction q as [|y q IH]; simpl; [reflexivity|].
  destruct (GameCommand_lt x y); [reflexivity|].
  rewrite perm_swap. apply perm_skip, IH.
Qed.

Lemma multiset_insert_sorted x q :
  StronglySorted tick_le q -> StronglySorted tick_le (multiset_insert x q).
Proof.
  induction q as [|y q IH]; simpl; intros Hs.
  - constructor; constructor.
  - unfold GameCommand_lt. destruct (Z.ltb_spec (tick x) (tick y)) as [Hlt|Hge].
    + constructor; [exact Hs|]. inversion_clear Hs as [|? ? _ Hall].
      constructor; [unfold tick_le; lia|].
      eapply Forall_impl; [exact Hall|]. unfold tick_le. simpl. intros; lia.
    + inversion_clear Hs as [|? ? Hq Hall]. constructor; [apply IH, Hq|].
      rewrite <- (multiset_insert_perm x q). constructor; [exact Hge | exact Hall].
Qed.

(** Insertion is stable: among the commands of one tick, the new one comes
    last. *)
Lemma multiset_insert_stable v x q :
  StronglySorted tick_le q ->
  List.filter (has_tick v) (multiset_insert x q) =
  List.filter (has_tick v) q ++ List.filter (has_tick v) [x].
Proof.
  induction q as [|y q IH]; simpl; intros Hs; [reflexivity|].
  inversion_clear Hs as [|? ? Hq Hall].
  unfold GameCommand_lt. destruct (Z.ltb_spec (tick x) (tick y)) as [Hlt|Hge].
  - simpl. destruct (has_tick v x) eqn:Hx.
    + apply Z.eqb_eq in Hx.
      assert (Hy : has_tick v y = false).
      { unfold has_tick. apply Z.eqb_neq. lia. }
      rewrite Hy. assert (Hnil : List.filter (has_tick v) q = []).
      { clear IH Hq. induction Hall as [|z q Hz _ IHq]; simpl; [reflexivity|].
        assert (Hzf : has_tick v z = false)
          by (unfold has_tick; apply Z.eqb_neq; unfold tick_le in Hz; lia).
        rewrite Hzf. exact IHq. }
      rewrite Hnil. reflexivity.
    + rewrite app_nil_r. reflexivity.
  - simpl. rewrite (IH Hq). destruct (has_tick v y); reflexivity.
Qed.

Lemma receive_all_perm arrivals q : Permutation (q ++ arrivals) (receive_all arrivals q).
Proof.
  revert q. induction arrivals as [|c arrivals IH]; intros q; simpl.
  - rewrite app_nil_r. reflexivity.
  - rewrite <- IH, <- multiset_insert_perm.
    rewrite <- Permutation_middle. reflexivity.
Qed.

Lemma receive_all_sorted arrivals q :
  StronglySorted tick_le q -> StronglySorted tick_le (receive_all arrivals q).
Proof.
  revert q. induction arrivals as [|c arrivals IH]; intros q Hs; simpl; [exact Hs|].
  apply IH, multiset_insert_sorted, Hs.
Qed.

Lemma receive_all_stable v arrivals q :
  StronglySorted tick_le q ->
  List.filter (has_tick v) (receive_all arrivals q) =
  List.filter (has_tick v) q ++ List.filter (has_tick v) arrivals.
Proof.
  revert q. induction arrivals as [|c arrivals IH]; intros q Hs; simpl.
  - rewrite app_nil_r. reflexivity.
  - rewrite IH by (apply multiset_insert_sorted, Hs).
    rewrite multiset_insert_stable by exact Hs.
    rewrite <- app_assoc. simpl. destruct (has_tick v c); reflexivity.
Qed.

Lemma on_client_set_queue_twice q q' s :
  on_client (set_gameCommandQueue q') (on_client (set_gameCommandQueue q) s) =
  on_client (set_gameCommandQueue q') s.
Proof. destruct s as [w []]; reflexivity. Qed.

Lemma queue_on_client_set q s :
  _gameCommandQueue (client (on_client (set_gameCommandQueue q) s)) = q.
Proof. destruct s as [w []]; reflexivity. Qed.

Lemma on_client_set_queue_same s :
  on_client (set_gameCommandQueue (_gameCommandQueue (client s))) s = s.
Proof. destruct s as [w []]; reflexivity. Qed.

Lemma RecieveGameCommand_all arrivals s :
  sequence_ (map RecieveGameCommand arrivals) s =
  Ret tt (on_client (set_gameCommandQueue
                       (receive_all arrivals (_gameCommandQueue (client s)))) s).
Proof.
  revert s. induction arrivals as [|c arrivals IH]; intros s; simpl.
  - rewrite on_client_set_queue_same. reflexivity.
  - unfold bind, RecieveGameCommand at 1, modify.
    rewrite IH. destruct s as [w []]; reflexivity.
Qed.

Lemma drain_front_spec t q :
  StronglySorted tick_le q ->
  let '(taken, rest) := drain_front t q in
  taken ++ rest = q /\
  StronglySorted tick_le taken /\
  Forall (fun c => tick c <= t) taken /\
  Forall (fun c => t < tick c) rest.
Proof.
  induction q as [|c q IH]; simpl; intros Hs.
  - repeat split; constructor.
  - inversion_clear Hs as [|? ? Hq Hall]. specialize (IH Hq).
    destruct (Z.leb_spec (tick c) t) as [Hle|Hgt].
    + destruct (drain_front t q) as [taken rest].
      destruct IH as (Happ & Hst & Hft & Hfr). subst q.
      repeat split; simpl; try assumption.
      * constructor; [exact Hst|]. apply Forall_app in Hall. apply Hall.
      * constructor; assumption.
    + repeat split; try constructor; try assumption.
      eapply Forall_impl; [exact Hall|]. unfold tick_le. simpl. intros; lia.
Qed.

(** C7.  From an empty queue, commands for the ticks 5, 2, 5, 1 received in
    that order are drained up to tick 5 in the order 1, 2, 5, 5, the two
    commands for tick 5 in their order of arrival.  For every list of
    arrivals the queue holds the arrivals sorted by tick, commands of one
    tick in arrival order, and draining up to any tick takes a front part
    that is sorted by tick. *)
Theorem command_queue_tick_order (s : State) :
  _gameCommandQueue (client s) = [] ->
  (forall c5 c2 c5' c1,
      tick c5 = 5 -> tick c2 = 2 -> tick c5' = 5 -> tick c1 = 1 ->
      exists s1 s2,
        sequence_ (map RecieveGameCommand [c5; c2; c5'; c1]) s = Ret tt s1 /\
        DrainUpTo 5 s1 = Ret [c1; c2; c5; c5'] s2 /\
        _gameCommandQueue (client s2) = []) /\
  (forall arrivals t,
      exists s1 taken s2,
        sequence_ (map RecieveGameCommand arrivals) s = Ret tt s1 /\
        Permutation arrivals (_gameCommandQueue (client s1)) /\
        StronglySorted tick_le (_gameCommandQueue (client s1)) /\
        (forall v, List.filter (has_tick v) (_gameCommandQueue (client s1)) =
                   List.filter (has_tick v) arrivals) /\
        DrainUpTo t s1 = Ret taken s2 /\
        taken ++ _gameCommandQueue (client s2) = _gameCommandQueue (client s1) /\
        StronglySorted tick_le taken /\
        Forall (fun c => tick c <= t) taken /\
        Forall (fun c => t < tick c) (_gameCommandQueue (client s2))).
Proof.
  intros Hempty. split.
  - intros c5 c2 c5' c1 H5 H2 H5' H1.
    rewrite RecieveGameCommand_all, Hempty. do 2 eexists. split; [reflexivity|].
    unfold DrainUpTo, bind, gets. rewrite queue_on_client_set.
    repeat (progress (simpl; unfold GameCommand_lt; rewrite ?H5, ?H2, ?H5', ?H1)).
    split; [reflexivity|]. destruct s as [w []]; reflexivity.
  - intros arrivals t. rewrite RecieveGameCommand_all, Hempty.
    set (q := receive_all arrivals []).
    assert (Hq : StronglySorted tick_le q) by (apply receive_all_sorted; constructor).
    pose proof (drain_front_spec t q Hq) as Hd.
    destruct (drain_front t q) as [taken rest] eqn:Hdrain.
    destruct Hd as (Happ & Hst & Hft & Hfr).
    exists (on_client (set_gameCommandQueue q) s), taken,
           (on_client (set_gameCommandQueue rest) s).
    rewrite queue_on_client_set.
    split; [reflexivity|].
    split; [apply (receive_all_perm arrivals [])|].
    split; [exact Hq|].
    split; [intros v; apply (receive_all_stable v arrivals []); constructor|].
    split.
    + unfold DrainUpTo, bind, gets. rewrite queue_on_client_set, Hdrain.
      unfold modify. rewrite on_client_set_queue_twice. reflexivity.
    + rewrite queue_on_client_set. auto.
Qed.

Lemma command_queue_tick_order_witness :
  exists s1 s2,
    sequence_ (map RecieveGameCommand
                 [Demo.command 5 1; Demo.command 2 2; Demo.command 5 3; Demo.command 1 4])
              Demo.first_run = Ret tt s1 /\
    DrainUpTo 5 s1 =
      Ret [Demo.command 1 4; Demo.command 2 2; Demo.command 5 1; Demo.command 5 3] s2 /\
    _gameCommandQueue (client s2) = [].
Proof.
  apply (proj1 (command_queue_tick_order Demo.first_run eq_refl)); reflexivity.
Defined.

End CommandQueue.

(** *** The tick anchor *)

Section TickAnchor.

Context (X : Externals).

Lemma RecieveTick_unset tick srand0 s :
  _serverSrand0Tick (client s) = 0 ->
  RecieveTick tick srand0 s =
  Ret tt (on_client (fun c =>
            set_serverSrand0Tick tick (set_serverSrand0 srand0 (set_serverTick tick c))) s).
Proof.
  intros H. destruct s as [w c]. destruct c. simpl in H. subst.
  reflexivity.
Qed.

Lemma RecieveTick_set tick srand0 s :
  _serverSrand0Tick (client s) <> 0 ->
  RecieveTick tick srand0 s = Ret tt (on_client (set_serverTick tick) s).
Proof.
  intros H. destruct s as [w c]. destruct c. simpl in H.
  unfold RecieveTick, bind, modify, gets. simpl.
  destruct (Z.eqb_spec _serverSrand0Tick0 0); [contradiction|reflexivity].
Qed.

(** After a map was loaded the anchor tick is 0, which stands for "unset". *)
Lemma LoadMap_rearms sv6Data s s1 :
  LoadMap X sv6Data s = Ret tt s1 ->
  fst (game_load_network X sv6Data (gCurrentTicks (world s))) = true ->
  _serverSrand0Tick (client s1) = 0 /\ _gameCommandQueue (client s1) = [].
Proof.
  unfold LoadMap, bind, gets, emit, modify. simpl.
  destruct (game_load_network X sv6Data (gCurrentTicks (world s))) as [loaded ticks'].
  simpl. intros H ->. injection H as <-.
  destruct s as [w []]; split; reflexivity.
Qed.

Lemma last_cons (l : list Z) (a d : Z) : List.last (a :: l) d = List.last l a.
Proof.
  revert a d. induction l as [|b l IH]; intros a d; [reflexivity|].
  change (List.last (a :: b :: l) d) with (List.last (b :: l) d).
  rewrite (IH b d), (IH b a). reflexivity.
Qed.

Lemma later_ticks_keep_anchor (later : list (Z * Z)) s :
  _serverSrand0Tick (client s) <> 0 ->
  sequence_ (map (fun p => RecieveTick (fst p) (snd p)) later) s =
  Ret tt (on_client (set_serverTick (List.last (map fst later) (_serverTick (client s)))) s).
Proof.
  revert s. induction later as [|[t sd] later IH]; intros s Hset.
  - simpl. destruct s as [w []]; reflexivity.
  - cbn [map sequence_ fst snd]. unfold bind. rewrite RecieveTick_set by exact Hset.
    rewrite IH by (destruct s as [w []]; exact Hset).
    cbn [map fst]. rewrite last_cons.
    destruct s as [w []]. reflexivity.
Qed.

(** C6, as amended.  After a map was loaded, the first [RecieveTick] stores
    the tick as the server tick and the tick and the seed as the anchor.
    When that tick is not 0, every later [RecieveTick] changes the server
    tick only: the anchored seed and the anchor tick stay. *)
Theorem tick_anchor_after_resync (sv6Data : list byte) (s s1 : State)
    (tick seed : Z) (later : list (Z * Z)) :
  LoadMap X sv6Data s = Ret tt s1 ->
  fst (game_load_network X sv6Data (gCurrentTicks (world s))) = true ->
  exists s2,
    RecieveTick tick seed s1 = Ret tt s2 /\
    _serverTick (client s2) = tick /\
    _serverSrand0 (client s2) = seed /\
    _serverSrand0Tick (client s2) = tick /\
    (tick <> 0 ->
     exists s3,
       sequence_ (map (fun p => RecieveTick (fst p) (snd p)) later) s2 = Ret tt s3 /\
       s3 = on_client (set_serverTick (List.last (map fst later) tick)) s2 /\
       _serverTick (client s3) = List.last (map fst later) tick /\
       _serverSrand0 (client s3) = seed /\
       _serverSrand0Tick (client s3) = tick).
Proof.
  intros Hload Hok. destruct (LoadMap_rearms _ _ _ Hload Hok) as [Hunset _].
  eexists. split; [apply RecieveTick_unset, Hunset|].
  destruct s1 as [w1 c1]. destruct c1. cbn.
  repeat split. intros Hnz. eexists. split.
  - apply later_ticks_keep_anchor. cbn. exact Hnz.
  - cbn. repeat split.
Qed.

End TickAnchor.

(** C6, the claim as stated fails: the first tick message after the map
    load carries tick 0, so the anchor still reads "unset", and the second
    message replaces the anchored seed 7 by 9. *)
Lemma tick_zero_anchor_replaced :
  exists s1 s2 s3,
    LoadMap (Demo.externals true true) [Byte.x01] (Demo.idle NETWORK_MODE_CLIENT) = Ret tt s1 /\
    RecieveTick 0 7 s1 = Ret tt s2 /\
    _serverSrand0 (client s2) = 7 /\
    RecieveTick 5 9 s2 = Ret tt s3 /\
    _serverSrand0 (client s3) = 9 /\
    _serverSrand0Tick (client s3) = 5.
Proof.
  do 3 eexists. split; [vm_compute; reflexivity|].
  split; [vm_compute; reflexivity|]. split; [reflexivity|].
  split; [vm_compute; reflexivity|]. split; reflexivity.
Qed.

Lemma tick_anchor_after_resync_witness :
  exists s2,
    RecieveTick 100 3735928559
      (final_state (LoadMap (Demo.externals true true) [Byte.x01]
                      (Demo.idle NETWORK_MODE_CLIENT))) = Ret tt s2 /\
    _serverTick (client s2) = 100 /\
    _serverSrand0 (client s2) = 3735928559 /\
    _serverSrand0Tick (client s2) = 100 /\
    (100 <> 0 ->
     exists s3,
       sequence_ (map (fun p => RecieveTick (fst p) (snd p)) [(101, 5); (102, 6)]) s2
         = Ret tt s3 /\
       s3 = on_client (set_serverTick (List.last (map fst [(101, 5); (102, 6)]) 100)) s2 /\
       _serverTick (client s3) = List.last (map fst [(101, 5); (102, 6)]) 100 /\
       _serverSrand0 (client s3) = 3735928559 /\
       _serverSrand0Tick (client s3) = 100).
Proof.
  apply (tick_anchor_after_resync (Demo.externals true true) [Byte.x01]
           (Demo.idle NETWORK_MODE_CLIENT)).
  - vm_compute. reflexivity.
  - reflexivity.
Defined.


(** *** Key files *)

Section KeyFiles.

Context (X : Externals).

(** The part of C8 that the code keeps.  A key file whose size is reported
    as -1 or is above 4 MiB makes [LoadPrivate] and [LoadPublic] return
    failure with nothing done: no read, no parse, the key store as it was.
    For a size within the ceiling [LoadPrivate] returns failure, keeping the
    key store as it was, when the content parses and [RSA_check_key] on the
    parsed key returns 0. *)
Lemma key_file_size_ceiling (f : SDL_RWops) (s : State) :
  (rw_size f = -1 \/ rw_size f > 4 * 1024 * 1024 ->
   NetworkKey_LoadPrivate X (Some f) s = Ret false s /\
   NetworkKey_LoadPublic X (Some f) s = Ret false s) /\
  (0 <= rw_size f <= 4 * 1024 * 1024 ->
   forall rsa,
     PEM_read_bio_RSAPrivateKey X (take (Z.to_nat (rw_size f)) (rw_data f)) = Some rsa ->
     RSA_check_key X (Some rsa) = 0 ->
     exists s',
       NetworkKey_LoadPrivate X (Some f) s = Ret false s' /\
       _key (client s') = _key (client s)).
Proof.
  split.
  - intros Hsize. unfold NetworkKey_LoadPrivate, NetworkKey_LoadPublic.
    destruct (Z.eqb_spec (rw_size f) (-1)) as [|Hne]; [split; reflexivity|].
    destruct Hsize as [|Hbig]; [contradiction|].
    unfold KEY_SIZE_CEILING.
    destruct (Z.gtb_spec (rw_size f) (4 * 1024 * 1024)); [split; reflexivity | lia].
  - intros Hsize rsa Hparse Hcheck. unfold NetworkKey_LoadPrivate, KEY_SIZE_CEILING.
    destruct (Z.eqb_spec (rw_size f) (-1)); [lia|].
    destruct (Z.gtb_spec (rw_size f) (4 * 1024 * 1024)); [lia|].
    unfold bind, read_whole.
    destruct (Z.ltb_spec (rw_size f) 0); [lia|].
    unfold bind, emit, modify, ret.
    destruct (BIO_new_mem_buf X _); simpl.
    + rewrite Hparse, Hcheck. simpl. eexists. split; [reflexivity|].
      destruct s as [w []]; reflexivity.
    + eexists. split; [reflexivity|]. destruct s as [w []]; reflexivity.
Qed.

(** C8, the defect.  For a key file within the ceiling whose content
    parses, a self-check that did not pass (its result is not 1) but whose
    result is not 0 either, such as the error result -1, does not make
    [LoadPrivate] fail: it puts the unchecked key into the key store and
    returns success. *)
Theorem LoadPrivate_accepts_unchecked_key (f : SDL_RWops) (s : State) (rsa : RSA) :
  0 <= rw_size f <= 4 * 1024 * 1024 ->
  BIO_new_mem_buf X (take (Z.to_nat (rw_size f)) (rw_data f)) = true ->
  PEM_read_bio_RSAPrivateKey X (take (Z.to_nat (rw_size f)) (rw_data f)) = Some rsa ->
  RSA_check_key X (Some rsa) <> 1 ->
  RSA_check_key X (Some rsa) <> 0 ->
  exists s',
    NetworkKey_LoadPrivate X (Some f) s = Ret true s' /\
    m_key (_key (client s')) = Some (mkEVP_PKEY (Some rsa)).
Proof.
  intros Hsize Hbio Hparse _ Hcheck. unfold NetworkKey_LoadPrivate, KEY_SIZE_CEILING.
  destruct (Z.eqb_spec (rw_size f) (-1)); [lia|].
  destruct (Z.gtb_spec (rw_size f) (4 * 1024 * 1024)); [lia|].
  unfold bind at 1. unfold read_whole.
  destruct (Z.ltb_spec (rw_size f) 0); [lia|].
  unfold bind at 1. unfold emit at 1. unfold modify, ret.
  rewrite Hbio. cbn [negb].
  unfold bind at 1. unfold emit at 1. unfold modify.
  rewrite Hparse.
  destruct (Z.eqb_spec (RSA_check_key X (Some rsa)) 0); [contradiction|].
  unfold bind, key_handle, gets, EVP_PKEY_free, put_m_key, emit, modify, ret.
  destruct s as [w c].
  destruct c as [a1 a2 a3 [ctx [pk|]] a5 a6 a7 a8 a9 a10 a11 a12 a13];
    simpl; eexists; split; reflexivity.
Qed.

(** The same missing test on the parse: content that does not parse makes
    [LoadPrivate] call [RSA_check_key] on a null pointer instead of
    returning failure. *)
Lemma LoadPrivate_unparsable (f : SDL_RWops) (s : State) :
  0 <= rw_size f <= 4 * 1024 * 1024 ->
  BIO_new_mem_buf X (take (Z.to_nat (rw_size f)) (rw_data f)) = true ->
  PEM_read_bio_RSAPrivateKey X (take (Z.to_nat (rw_size f)) (rw_data f)) = None ->
  exists s',
    NetworkKey_LoadPrivate X (Some f) s = Abort NullDereference s' /\
    _key (client s') = _key (client s).
Proof.
  intros Hsize Hbio Hparse. unfold NetworkKey_LoadPrivate, KEY_SIZE_CEILING.
  destruct (Z.eqb_spec (rw_size f) (-1)); [lia|].
  destruct (Z.gtb_spec (rw_size f) (4 * 1024 * 1024)); [lia|].
  unfold bind at 1. unfold read_whole.
  destruct (Z.ltb_spec (rw_size f) 0); [lia|].
  unfold bind at 1. unfold emit at 1. unfold modify, ret.
  rewrite Hbio. cbn [negb].
  unfold bind at 1. unfold emit at 1. unfold modify.
  rewrite Hparse. eexists. split; [reflexivity|].
  destruct s as [w []]; reflexivity.
Qed.

(** Within the ceiling the file is read: the first thing [LoadPrivate]
    adds to the log is the read of [size] bytes. *)
Lemma LoadPrivate_within_ceiling_reads (f : SDL_RWops) (s : State) :
  0 <= rw_size f <= 4 * 1024 * 1024 ->
  exists rest,
    log (world (final_state (NetworkKey_LoadPrivate X (Some f) s))) =
    log (world s) ++ EvFileRead (rw_size f) :: rest.
Proof.
  intros Hsize. unfold NetworkKey_LoadPrivate, KEY_SIZE_CEILING.
  destruct (Z.eqb_spec (rw_size f) (-1)); [lia|].
  destruct (Z.gtb_spec (rw_size f) (4 * 1024 * 1024)); [lia|].
  unfold bind at 1. unfold read_whole.
  destruct (Z.ltb_spec (rw_size f) 0); [lia|].
  unfold bind at 1. unfold emit at 1. unfold modify, ret.
  destruct (BIO_new_mem_buf X _); simpl.
  - unfold bind at 1. unfold emit at 1. unfold modify.
    destruct (PEM_read_bio_RSAPrivateKey X _) as [rsa|].
    + destruct (RSA_check_key X _ =? 0).
      * eexists. simpl. rewrite <- app_assoc. reflexivity.
      * unfold bind, key_handle, gets, EVP_PKEY_free, put_m_key, emit, modify, ret.
        destruct s as [w c].
        destruct c as [a1 a2 a3 [ctx [pk|]] a5 a6 a7 a8 a9 a10 a11 a12 a13];
          simpl; eexists; rewrite <- ?app_assoc; reflexivity.
    + eexists. simpl. rewrite <- app_assoc. reflexivity.
  - exists []. reflexivity.
Qed.

End KeyFiles.

Lemma LoadPrivate_accepts_unchecked_key_witness :
  exists s',
    NetworkKey_LoadPrivate DemoMore.externals_check_error
      (Some (file_rw Demo.key_file)) Demo.first_run = Ret true s' /\
    m_key (_key (client s')) = Some (mkEVP_PKEY (Some Demo.rsa)).
Proof.
  apply (LoadPrivate_accepts_unchecked_key DemoMore.externals_check_error
           (file_rw Demo.key_file) Demo.first_run Demo.rsa).
  - vm_compute. split; discriminate.
  - reflexivity.
  - reflexivity.
  - vm_compute. discriminate.
  - vm_compute. discriminate.
Defined.

(** *** The map transfer *)

Section MapTransfer.

Context (X : Externals).

Lemma LoadMap_returns sv6Data s :
  exists s', LoadMap X sv6Data s = Ret tt s' /\
             _mapBuffer (client s') = _mapBuffer (client s).
Proof.
  unfold LoadMap, bind, gets, emit, modify. simpl.
  destruct (game_load_network X sv6Data (gCurrentTicks (world s))) as [[|] ticks'];
    simpl; eexists; (split; [reflexivity|]); destruct s as [w []]; reflexivity.
Qed.

Lemma ProcessMap_returns mapData s :
  exists s', ProcessMap X mapData s = Ret tt s' /\
             _mapBuffer (client s') = _mapBuffer (client s).
Proof.
  unfold ProcessMap.
  destruct (String_Equals X mapData (SV6_HEADER_ZLIB_COMPRESSED X)).
  - unfold bind at 1. unfold emit, modify.
    destruct (util_zlib_inflate X _ _) as [sv6Data|].
    + destruct (LoadMap_returns sv6Data
                  (on_world (fun w => set_log (log w ++ [EvZlibInflate
                     (drop (String_SizeOf X (SV6_HEADER_ZLIB_COMPRESSED X) + 1) mapData)
                     (Z.of_nat (length mapData)
                      - Z.of_nat (String_SizeOf X (SV6_HEADER_ZLIB_COMPRESSED X) + 1))]) w) s))
        as (s' & Hs' & Hbuf).
      exists s'. split; [exact Hs'|]. rewrite Hbuf. destruct s as [w []]; reflexivity.
    + eexists. split; [reflexivity|]. destruct s as [w []]; reflexivity.
  - apply LoadMap_returns.
Qed.

Lemma complete_transfer_returns buffer s :
  exists s', complete_transfer X buffer s = Ret tt s' /\ _mapBuffer (client s') = [].
Proof.
  unfold complete_transfer, bind, emit, modify.
  destruct (ProcessMap_returns buffer
              (on_world (fun w => set_log (log w ++ [EvNetworkStatusClose]) w) s))
    as (s' & -> & _).
  eexists. split; [reflexivity|]. destruct s' as [w []]; reflexivity.
Qed.

(** [ReceiveMap] on a chunk that fits in the buffer: the chunk is stored,
    and the transfer is completed exactly when the chunk ends at the total
    size. *)
Lemma ReceiveMap_unfold totalDataSize offset dataChunk s :
  (offset + length dataChunk <= length (grown totalDataSize (_mapBuffer (client s))))%nat ->
  ReceiveMap X totalDataSize offset dataChunk s =
  if (offset + length dataChunk =? totalDataSize)%nat
  then complete_transfer X
         (overwritten offset dataChunk (grown totalDataSize (_mapBuffer (client s))))
         (chunk_stored totalDataSize offset dataChunk s)
  else Ret tt (chunk_stored totalDataSize offset dataChunk s).
Proof.
  intros Hfits. destruct s as [[m t fs l] c].
  destruct c as [a1 a2 a3 a4 a5 buffer a7 a8 a9 a10 a11 a12 a13].
  cbn [client _mapBuffer] in Hfits.
  assert (Hempty : overwritten offset [] (grown totalDataSize buffer) =
                   grown totalDataSize buffer).
  { unfold overwritten. cbn [length app]. rewrite Nat.add_0_r. apply take_drop. }
  unfold ReceiveMap, complete_transfer, chunk_stored.
  generalize (ProcessMap X). intros process.
  destruct dataChunk as [|b dataChunk].
  - cbn [client _mapBuffer]. rewrite Hempty. unfold grown.
    cbv beta iota zeta delta
      [Memory_Copy_mapBuffer bind emit gets modify ret abort on_client on_world
       set_mapBuffer set_log client world _mapBuffer log progress_event].
    destruct (Nat.ltb_spec (length buffer) totalDataSize) as [Hlt|Hge];
      cbv beta iota zeta delta
        [bind emit gets modify ret abort on_client on_world
         set_mapBuffer set_log client world _mapBuffer log];
      destruct (offset + length (@nil byte) =? totalDataSize)%nat; reflexivity.
  - set (dataChunk' := b :: dataChunk) in *. unfold grown in *.
    cbv beta iota zeta delta
      [Memory_Copy_mapBuffer bind emit gets modify ret abort on_client on_world
       set_mapBuffer set_log client world _mapBuffer log progress_event].
    subst dataChunk'. cbv iota. set (dataChunk' := b :: dataChunk) in *.
    destruct (Nat.ltb_spec (length buffer) totalDataSize) as [Hlt|Hge];
      cbv beta iota zeta delta
        [bind emit gets modify ret abort on_client on_world
         set_mapBuffer set_log client world _mapBuffer log].
    + destruct (Nat.ltb_spec (length (resize totalDataSize x00 buffer))
                             (offset + length dataChunk')) as [Hbad|_]; [lia|].
      destruct (offset + length dataChunk' =? totalDataSize)%nat; reflexivity.
    + destruct (Nat.ltb_spec (length buffer) (offset + length dataChunk')) as [Hbad|_];
        [lia|].
      destruct (offset + length dataChunk' =? totalDataSize)%nat; reflexivity.
Qed.

Lemma half_lt (T : nat) : (0 < T)%nat -> (T / 2 < T)%nat.
Proof. intros H. apply Nat.div_lt; lia. Qed.

Lemma grown_nil (T : nat) : grown T [] = replicate T x00.
Proof.
  unfold grown. destruct (Nat.ltb_spec (length (@nil byte)) T) as [_|Hz].
  - apply resize_nil.
  - simpl in Hz. replace T with 0%nat by lia. reflexivity.
Qed.

Lemma grown_full (T : nat) (buffer : list byte) : length buffer = T -> grown T buffer = buffer.
Proof.
  intros H. unfold grown. destruct (Nat.ltb_spec (length buffer) T); [lia|reflexivity].
Qed.

(** The first half written into an empty buffer grown to the total size. *)
Lemma first_half_stored (data : list byte) (h : nat) :
  (h <= length data)%nat ->
  overwritten 0 (take h data) (replicate (length data) x00) =
  take h data ++ replicate (length data - h) x00.
Proof.
  intros Hh. unfold overwritten. rewrite take_0, length_take_le by exact Hh.
  simpl. rewrite drop_replicate. reflexivity.
Qed.

(** The second half written after the first one: all the bytes. *)
Lemma second_half_stored (data : list byte) (h : nat) :
  (h <= length data)%nat ->
  overwritten h (drop h data) (take h data ++ replicate (length data - h) x00) = data.
Proof.
  intros Hh. unfold overwritten.
  rewrite take_app_length' by (rewrite length_take_le; lia).
  rewrite (drop_ge (take h data ++ replicate (length data - h) x00)).
  - rewrite app_nil_r. apply take_drop.
  - rewrite length_app, length_take_le, length_replicate, length_drop by lia. lia.
Qed.

(** The second half written into an empty buffer grown to the total size:
    the first half of the buffer is still zero. *)
Lemma second_half_alone (data : list byte) (h : nat) :
  (h <= length data)%nat ->
  overwritten h (drop h data) (replicate (length data) x00) =
  replicate h x00 ++ drop h data.
Proof.
  intros Hh. unfold overwritten. rewrite take_replicate, drop_replicate, length_drop.
  replace (h `min` length data)%nat with h by lia.
  replace (length data - (h + (length data - h)))%nat with 0%nat by lia.
  simpl. rewrite app_nil_r. reflexivity.
Qed.

Lemma chunk_stored_buffer total offset chunk s :
  _mapBuffer (client (chunk_stored total offset chunk s)) =
  overwritten offset chunk (grown total (_mapBuffer (client s))).
Proof. destruct s as [w []]; reflexivity. Qed.

(** C2, as amended.  A transfer of [T] bytes, [T] not 0, arrives in the two
    chunks [(0, bytes 0..T/2)] and [(T/2, bytes T/2..T)] into an empty
    buffer.  In offset order the first chunk is stored and the second
    completes the transfer: [ProcessMap] is handed all [T] bytes.  In the
    reverse order the chunk at [T/2] completes the transfer on its own,
    [ProcessMap] is handed a buffer whose first [T/2] bytes are zero, and the
    chunk at 0 that follows is stored in a new buffer without completing
    anything.  For every chunk that fits in the buffer, completion happens
    exactly when [offset + chunkSize = totalSize]. *)
Theorem two_chunk_transfer (data : list byte) (T h : nat) (s : State) :
  T = length data ->
  h = (T / 2)%nat ->
  (0 < T)%nat ->
  _mapBuffer (client s) = [] ->
  (let sA := chunk_stored T 0 (take h data) s in
   ReceiveMap X T 0 (take h data) s = Ret tt sA /\
   _mapBuffer (client sA) = take h data ++ replicate (T - h) x00 /\
   ReceiveMap X T h (drop h data) sA =
     complete_transfer X data (chunk_stored T h (drop h data) sA)) /\
  (ReceiveMap X T h (drop h data) s =
     complete_transfer X (replicate h x00 ++ drop h data)
       (chunk_stored T h (drop h data) s) /\
   exists sB,
     ReceiveMap X T h (drop h data) s = Ret tt sB /\
     _mapBuffer (client sB) = [] /\
     let sBA := chunk_stored T 0 (take h data) sB in
     ReceiveMap X T 0 (take h data) sB = Ret tt sBA /\
     _mapBuffer (client sBA) = take h data ++ replicate (T - h) x00) /\
  (forall total offset chunk s0,
     (offset + length chunk <= length (grown total (_mapBuffer (client s0))))%nat ->
     ((offset + length chunk)%nat = total ->
      ReceiveMap X total offset chunk s0 =
        complete_transfer X
          (overwritten offset chunk (grown total (_mapBuffer (client s0))))
          (chunk_stored total offset chunk s0)) /\
     ((offset + length chunk)%nat <> total ->
      ReceiveMap X total offset chunk s0 = Ret tt (chunk_stored total offset chunk s0))).
Proof.
  intros HT Hh Hpos Hempty.
  assert (Hlt : (h < T)%nat) by (subst h; apply half_lt, Hpos).
  assert (Hle : (h <= length data)%nat) by lia.
  assert (HlenA : length (take h data) = h) by (apply length_take_le, Hle).
  assert (HlenB : length (drop h data) = (T - h)%nat) by (rewrite length_drop; lia).
  (* a chunk at offset 0 into an empty buffer *)
  assert (Hfirst : forall s0, _mapBuffer (client s0) = [] ->
            ReceiveMap X T 0 (take h data) s0 = Ret tt (chunk_stored T 0 (take h data) s0) /\
            _mapBuffer (client (chunk_stored T 0 (take h data) s0)) =
              take h data ++ replicate (T - h) x00).
  { intros s0 Hs0. split.
    - rewrite ReceiveMap_unfold.
      + rewrite HlenA. destruct (Nat.eqb_spec (0 + h) T); [lia|reflexivity].
      + rewrite Hs0, grown_nil, length_replicate, HlenA. lia.
    - rewrite chunk_stored_buffer, Hs0, grown_nil, HT. apply first_half_stored, Hle. }
  split; [|split].
  - destruct (Hfirst s Hempty) as [HrunA HbufA]. cbv zeta.
    split; [exact HrunA|]. split; [exact HbufA|].
    assert (HlenbufA : length (_mapBuffer (client (chunk_stored T 0 (take h data) s))) = T).
    { rewrite HbufA, length_app, HlenA, length_replicate. lia. }
    rewrite ReceiveMap_unfold.
    + rewrite HlenB. destruct (Nat.eqb_spec (h + (T - h)) T); [|lia].
      rewrite grown_full by exact HlenbufA. rewrite HbufA, HT.
      rewrite second_half_stored by exact Hle. reflexivity.
    + rewrite grown_full by exact HlenbufA. rewrite HlenbufA, HlenB. lia.
  - assert (HrunB : ReceiveMap X T h (drop h data) s =
              complete_transfer X (replicate h x00 ++ drop h data)
                (chunk_stored T h (drop h data) s)).
    { rewrite ReceiveMap_unfold.
      - rewrite HlenB. destruct (Nat.eqb_spec (h + (T - h)) T); [|lia].
        rewrite Hempty, grown_nil, HT. rewrite second_half_alone by exact Hle.
        reflexivity.
      - rewrite Hempty, grown_nil, length_replicate, HlenB. lia. }
    split; [exact HrunB|].
    destruct (complete_transfer_returns (replicate h x00 ++ drop h data)
                (chunk_stored T h (drop h data) s)) as (sB & HsB & HbufB).
    exists sB. rewrite HrunB. split; [exact HsB|]. split; [exact HbufB|].
    cbv zeta. apply Hfirst, HbufB.
  - intros total offset chunk s0 Hfits. split; intros Hsum.
    + rewrite ReceiveMap_unfold by exact Hfits.
      destruct (Nat.eqb_spec (offset + length chunk) total); [reflexivity|contradiction].
    + rewrite ReceiveMap_unfold by exact Hfits.
      destruct (Nat.eqb_spec (offset + length chunk) total); [contradiction|reflexivity].
Qed.

End MapTransfer.

(** C2, the claim as stated fails: the two bytes 41 42 arrive as the chunks
    [(0, 41)] and [(1, 42)].  In offset order the game loader is given
    41 42; in the reverse order it is given 00 42 when the chunk at offset 1
    arrives, and the chunk at offset 0 is left in the buffer with no second
    completion. *)
Lemma reverse_order_hands_over_zeroes :
  log (world (final_state
    (sequence_ [ReceiveMap (Demo.externals true true) 2 0 [Byte.x41];
                ReceiveMap (Demo.externals true true) 2 1 [Byte.x42]] Demo.first_run)))
  = [EvNetworkStatusOpen 0 0; EvNetworkStatusOpen 0 0; EvNetworkStatusClose;
     EvGameLoadNetwork [Byte.x41; Byte.x42]; EvGameLoadInit; EvChatShowHelp] /\
  log (world (final_state
    (sequence_ [ReceiveMap (Demo.externals true true) 2 1 [Byte.x42];
                ReceiveMap (Demo.externals true true) 2 0 [Byte.x41]] Demo.first_run)))
  = [EvNetworkStatusOpen 0 0; EvNetworkStatusClose;
     EvGameLoadNetwork [Byte.x00; Byte.x42]; EvGameLoadInit; EvChatShowHelp;
     EvNetworkStatusOpen 0 0] /\
  _mapBuffer (client (final_state
    (sequence_ [ReceiveMap (Demo.externals true true) 2 1 [Byte.x42];
                ReceiveMap (Demo.externals true true) 2 0 [Byte.x41]] Demo.first_run)))
  = [Byte.x41; Byte.x00].
Proof. repeat split; vm_compute; reflexivity. Qed.

Lemma two_chunk_transfer_witness :
  let X := Demo.externals true true in
  let data := [Byte.x41; Byte.x42; Byte.x43; Byte.x44] in
  let sA := chunk_stored 4 0 [Byte.x41; Byte.x42] Demo.first_run in
  ReceiveMap X 4 0 [Byte.x41; Byte.x42] Demo.first_run = Ret tt sA /\
  _mapBuffer (client sA) = [Byte.x41; Byte.x42; Byte.x00; Byte.x00] /\
  ReceiveMap X 4 2 [Byte.x43; Byte.x44] sA =
    complete_transfer X data (chunk_stored 4 2 [Byte.x43; Byte.x44] sA).
Proof.
  apply (proj1 (two_chunk_transfer (Demo.externals true true)
                  [Byte.x41; Byte.x42; Byte.x43; Byte.x44] 4 2 Demo.first_run
                  eq_refl eq_refl ltac:(lia) eq_refl)).
Defined.

(** *** Authentication *)

Section Authentication.

Context (X : Externals).

Lemma key_step_challenge s s' : key_step s s' -> _challenge (client s') = _challenge (client s).
Proof. intros (k & l & fs & ->). destruct s as [w []]; reflexivity. Qed.

(** [PublicKeyString] only reads the state. *)
Lemma PublicKeyString_reads s pubkey s' :
  NetworkKey_PublicKeyString X s = Ret pubkey s' -> s' = s.
Proof.
  unfold NetworkKey_PublicKeyString, key_handle, bind, gets, abort, ret.
  destruct (m_key (_key (client s))) as [pk|]; [|discriminate].
  destruct (pkey_rsa pk) as [rsa|]; [|discriminate].
  destruct (BIO_new_mem X); simpl; [|discriminate].
  destruct (PEM_write_bio_RSAPublicKey X rsa) as [result pem].
  destruct (result =? 1); simpl; [|discriminate].
  intros H. injection H as _ <-. reflexivity.
Qed.

(** [Sign] always returns, changes no state, and leaves a null signature
    pointer behind when it fails. *)
Lemma Sign_returns md out_size0 s :
  exists result signature out_size,
    NetworkKey_Sign X md out_size0 s = Ret (result, signature, out_size) s /\
    (result = false -> signature = None).
Proof.
  unfold NetworkKey_Sign, key_handle, bind, gets, ret.
  destruct (EVP_MD_CTX_create X); simpl; [|eauto 6].
  destruct (EVP_DigestSignInit X _ =? 1); simpl; [|eauto 6].
  destruct (EVP_DigestSignUpdate X _ md =? 1); simpl; [|eauto 6].
  destruct (EVP_DigestSignFinal_length X _ md out_size0) as [r1 out_size1].
  destruct (r1 =? 1); simpl; [|eauto 6].
  destruct (OPENSSL_malloc X out_size1); simpl; [|eauto 6].
  destruct (EVP_DigestSignFinal X _ md out_size1) as [[r2 sig] out_size2].
  destruct (r2 =? 1); simpl; [|eauto 6].
  do 3 eexists. split; [reflexivity|discriminate].
Qed.

Lemma Sign_failure_null md out_size0 s signature out_size s' :
  NetworkKey_Sign X md out_size0 s = Ret (false, signature, out_size) s' ->
  signature = None /\ s' = s.
Proof.
  destruct (Sign_returns md out_size0 s) as (r & sg & n & Heq & Hnull).
  rewrite Heq. intros H. injection H as -> -> -> ->. auto.
Qed.

Lemma LoadPrivate_true_loaded file s s' :
  NetworkKey_LoadPrivate X file s = Ret true s' -> m_key (_key (client s')) <> None.
Proof.
  unfold NetworkKey_LoadPrivate. destruct file as [f|]; [|discriminate].
  destruct (rw_size f =? -1); [discriminate|].
  destruct (rw_size f >? KEY_SIZE_CEILING); [discriminate|].
  unfold bind at 1. unfold read_whole.
  destruct (rw_size f <? 0); [discriminate|].
  unfold bind at 1. unfold emit at 1. unfold modify, ret.
  destruct (BIO_new_mem_buf X _); simpl; [|discriminate].
  unfold bind at 1. unfold emit at 1. unfold modify.
  destruct (PEM_read_bio_RSAPrivateKey X _) as [rsa|]; [|discriminate].
  destruct (RSA_check_key X _ =? 0); [discriminate|].
  unfold bind, key_handle, gets, EVP_PKEY_free, put_m_key, emit, modify, ret.
  destruct s as [w c]. destruct c as [a1 a2 a3 [ctx [pk|]] a5 a6 a7 a8 a9 a10 a11 a12 a13];
    simpl; intros H; injection H as <-; discriminate.
Qed.

Lemma LoadPrivateKey_true_loaded s s' :
  LoadPrivateKey X s = Ret true s' -> m_key (_key (client s')) <> None.
Proof.
  unfold LoadPrivateKey, bind, platform_file_exists, SDL_RWFromFile_rb, gets.
  destruct (bool_decide _).
  - destruct (NetworkKey_LoadPrivate X _ s) as [[|] s1|f s1] eqn:Hload; simpl.
    + intros H. injection H as <-. eapply LoadPrivate_true_loaded, Hload.
    + discriminate.
    + discriminate.
  - unfold ret. discriminate.
Qed.

Lemma on_connection_present u s conn :
  _serverConnection (client s) = Some conn ->
  on_connection u s = Ret tt (on_client (set_serverConnection (Some (u conn))) s).
Proof.
  intros H. unfold on_connection, server_connection, bind, gets. rewrite H. reflexivity.
Qed.

Lemma on_client_set_challenge_same s :
  on_client (set_challenge (_challenge (client s))) s = s.
Proof. destruct s as [w []]; reflexivity. Qed.

Lemma Unload_result s :
  exists s', NetworkKey_Unload s = Ret tt s' /\ unloaded s' /\
    _serverConnection (client s') = _serverConnection (client s).
Proof.
  destruct s as [w c]. destruct c as [a1 a2 a3 [ctx [pk|]] a5 a6 a7 a8 a9 a10 a11 a12 a13];
    eexists; repeat split; reflexivity.
Qed.

(** What the two handlers do once the private key is loaded and [Sign]
    has failed. *)
Lemma HandleChallenge_sign_failure challenge s s2 pubkey signature sigsize conn :
  _serverConnection (client s) = Some conn ->
  NetworkKey_PublicKeyString X (on_client (set_challenge challenge) s)
    = Ret pubkey (on_client (set_challenge challenge) s) ->
  LoadPrivateKey X (on_client (set_challenge challenge) s) = Ret true s2 ->
  NetworkKey_Sign X challenge (indeterminate_size X) s2
    = Ret (false, signature, sigsize) s2 ->
  exists s',
    HandleChallenge X challenge s = Ret tt s' /\
    _key (client s') = _key (client s2) /\
    _serverConnection (client s') =
      Some (mkNetworkConnection (mkTcpSocket (sock_peer (Socket conn)) true)
              (AuthStatus conn) (Some STR_MULTIPLAYER_VERIFICATION_FAILURE)
              (QueuedPackets conn)).
Proof.
  intros Hconn Hpub Hload Hsign.
  pose proof (key_only_LoadPrivateKey X (on_client (set_challenge challenge) s)) as Hstep.
  rewrite Hload in Hstep. simpl in Hstep.
  assert (Hch : _challenge (client s2) = challenge).
  { rewrite (key_step_challenge _ _ Hstep). destruct s as [w []]; reflexivity. }
  assert (Hconn2 : _serverConnection (client s2) = Some conn).
  { rewrite (key_step_connection _ _ Hstep), <- Hconn. destruct s as [w []]; reflexivity. }
  unfold HandleChallenge. unfold bind at 1. unfold modify at 1.
  unfold bind at 1. rewrite Hpub.
  unfold bind at 1. rewrite Hload. cbn [negb].
  unfold bind at 1. unfold gets at 1. rewrite Hch.
  unfold bind at 1. rewrite Hsign. cbn [negb].
  unfold SetLastDisconnectReason, Socket_Disconnect, bind.
  erewrite on_connection_present
    by (destruct s2 as [w []]; cbn in *; exact Hconn2).
  erewrite on_connection_present by (destruct s2 as [w []]; reflexivity).
  unfold emit, modify. eexists. split; [reflexivity|].
  destruct s2 as [w []]; split; reflexivity.
Qed.

Lemma SendPassword_sign_failure password s s2 pubkey signature sigsize :
  NetworkKey_PublicKeyString X s = Ret pubkey s ->
  LoadPrivateKey X s = Ret true s2 ->
  NetworkKey_Sign X (_challenge (client s)) (indeterminate_size X) s2
    = Ret (false, signature, sigsize) s2 ->
  SendPassword X password s =
  SendAuthentication X (player_name X) password pubkey None sigsize
    (final_state (NetworkKey_Unload s2)).
Proof.
  intros Hpub Hload Hsign.
  pose proof (key_only_LoadPrivateKey X s) as Hstep.
  rewrite Hload in Hstep. simpl in Hstep.
  destruct (Sign_failure_null _ _ _ _ _ _ Hsign) as [-> _].
  unfold SendPassword. unfold bind at 1. rewrite Hpub.
  unfold bind at 1. rewrite Hload. cbn [negb].
  unfold bind at 1. unfold gets at 1. rewrite (key_step_challenge _ _ Hstep).
  unfold bind at 1. rewrite Hsign.
  unfold bind at 1.
  destruct (Unload_result s2) as (s3 & -> & _). reflexivity.
Qed.

(** C3, the defect.  When the private key loads and [Sign] fails,
    [HandleChallenge] returns with the key still in the key store. *)
Theorem HandleChallenge_sign_failure_keeps_key
    (challenge : list byte) (s s2 : State) (pubkey : string)
    (signature : option (list byte)) (sigsize : Z) (conn : NetworkConnection) :
  _serverConnection (client s) = Some conn ->
  NetworkKey_PublicKeyString X (on_client (set_challenge challenge) s)
    = Ret pubkey (on_client (set_challenge challenge) s) ->
  LoadPrivateKey X (on_client (set_challenge challenge) s) = Ret true s2 ->
  NetworkKey_Sign X challenge (indeterminate_size X) s2
    = Ret (false, signature, sigsize) s2 ->
  exists s',
    HandleChallenge X challenge s = Ret tt s' /\
    m_key (_key (client s')) <> None.
Proof.
  intros Hconn Hpub Hload Hsign.
  destruct (HandleChallenge_sign_failure _ _ _ _ _ _ _ Hconn Hpub Hload Hsign)
    as (s' & Hrun & Hkey & _).
  exists s'. split; [exact Hrun|]. rewrite Hkey.
  eapply LoadPrivateKey_true_loaded, Hload.
Qed.

(** The sibling path: once the private key is loaded, [SendPassword]
    unloads it whatever [Sign] returns. *)
Lemma SendPassword_unloads password s s2 pubkey s' :
  NetworkKey_PublicKeyString X s = Ret pubkey s ->
  LoadPrivateKey X s = Ret true s2 ->
  SendPassword X password s = Ret tt s' ->
  unloaded s'.
Proof.
  intros Hpub Hload. unfold SendPassword. unfold bind at 1. rewrite Hpub.
  unfold bind at 1. rewrite Hload. cbn [negb].
  unfold bind at 1. unfold gets at 1.
  destruct (Sign_returns (_challenge (client s2)) (indeterminate_size X) s2)
    as (r & sg & n & Hsign & _).
  unfold bind at 1. rewrite Hsign.
  unfold bind at 1.
  destruct (Unload_result s2) as (s3 & -> & Hun & _).
  unfold SendAuthentication, bind, Guard_Assert.
  destruct (n <=? UINT32_MAX); [|discriminate]. unfold ret.
  unfold set_AuthStatus, QueuePacket.
  destruct (_serverConnection (client s3)) as [conn|] eqn:Hc.
  - erewrite on_connection_present by exact Hc.
    erewrite on_connection_present by (destruct s3 as [w []]; reflexivity).
    intros H. injection H as <-. destruct s3 as [w []]; exact Hun.
  - unfold on_connection, server_connection, bind, gets. rewrite Hc. discriminate.
Qed.

Lemma LoadPrivate_false_keeps_key file s s' :
  NetworkKey_LoadPrivate X file s = Ret false s' -> _key (client s') = _key (client s).
Proof.
  unfold NetworkKey_LoadPrivate. destruct file as [f|]; [|discriminate].
  destruct (rw_size f =? -1); [intros H; injection H as <-; reflexivity|].
  destruct (rw_size f >? KEY_SIZE_CEILING); [intros H; injection H as <-; reflexivity|].
  unfold bind at 1. unfold read_whole.
  destruct (rw_size f <? 0); [discriminate|].
  unfold bind at 1. unfold emit at 1. unfold modify, ret.
  destruct (BIO_new_mem_buf X _); simpl.
  - unfold bind at 1. unfold emit at 1. unfold modify.
    destruct (PEM_read_bio_RSAPrivateKey X _) as [rsa|]; [|discriminate].
    destruct (RSA_check_key X _ =? 0).
    + intros H. injection H as <-. destruct s as [w []]; reflexivity.
    + unfold bind, key_handle, gets, EVP_PKEY_free, put_m_key, emit, modify, ret.
      destruct s as [w c].
      destruct c as [a1 a2 a3 [ctx [pk|]] a5 a6 a7 a8 a9 a10 a11 a12 a13];
        simpl; discriminate.
  - intros H. injection H as <-. destruct s as [w []]; reflexivity.
Qed.

Lemma LoadPrivateKey_false_keeps_key s s' :
  LoadPrivateKey X s = Ret false s' -> _key (client s') = _key (client s).
Proof.
  unfold LoadPrivateKey, bind, platform_file_exists, SDL_RWFromFile_rb, gets.
  destruct (bool_decide _).
  - destruct (NetworkKey_LoadPrivate X _ s) as [[|] s1|f s1] eqn:Hload; simpl.
    + discriminate.
    + intros H. injection H as <-.
      apply (LoadPrivate_false_keeps_key _ _ _ Hload).
    + discriminate.
  - unfold ret. intros H. injection H as <-. reflexivity.
Qed.

(** The other early return: when the private key cannot be loaded,
    [SendPassword] returns with the key store as it found it, and it found
    a key there, since [PublicKeyString] returned. *)
Lemma SendPassword_load_failure_keeps_key password s s2 pubkey :
  NetworkKey_PublicKeyString X s = Ret pubkey s ->
  LoadPrivateKey X s = Ret false s2 ->
  SendPassword X password s = Ret tt s2 /\ m_key (_key (client s2)) <> None.
Proof.
  intros Hpub Hload. split.
  - unfold SendPassword. unfold bind at 1. rewrite Hpub.
    unfold bind at 1. rewrite Hload. reflexivity.
  - rewrite (LoadPrivateKey_false_keeps_key _ _ Hload).
    revert Hpub. unfold NetworkKey_PublicKeyString, key_handle, bind, gets, abort.
    destruct (m_key (_key (client s))); [discriminate|]. discriminate.
Qed.

(** The path without failure: [HandleChallenge] signs, unloads the key and
    queues the authentication packet with the signature. *)
Lemma HandleChallenge_success challenge s s2 pubkey signature sigsize conn :
  _serverConnection (client s) = Some conn ->
  NetworkKey_PublicKeyString X (on_client (set_challenge challenge) s)
    = Ret pubkey (on_client (set_challenge challenge) s) ->
  LoadPrivateKey X (on_client (set_challenge challenge) s) = Ret true s2 ->
  NetworkKey_Sign X challenge (indeterminate_size X) s2
    = Ret (true, signature, sigsize) s2 ->
  sigsize <= UINT32_MAX ->
  exists s',
    HandleChallenge X challenge s = Ret tt s' /\
    unloaded s' /\
    _serverConnection (client s') =
      Some (mkNetworkConnection (Socket conn) NETWORK_AUTH_REQUESTED
              (LastDisconnectReason conn)
              (QueuedPackets conn ++
               [[ PCommand NETWORK_COMMAND_AUTH;
                  PString (NETWORK_STREAM_ID X);
                  PString (player_name X);
                  PString "";
                  PString pubkey;
                  PUint32 (to_uint32 sigsize);
                  PRaw signature sigsize ]])).
Proof.
  intros Hconn Hpub Hload Hsign Hguard.
  pose proof (key_only_LoadPrivateKey X (on_client (set_challenge challenge) s)) as Hstep.
  rewrite Hload in Hstep. simpl in Hstep.
  assert (Hch : _challenge (client s2) = challenge).
  { rewrite (key_step_challenge _ _ Hstep). destruct s as [w []]; reflexivity. }
  assert (Hconn2 : _serverConnection (client s2) = Some conn).
  { rewrite (key_step_connection _ _ Hstep), <- Hconn. destruct s as [w []]; reflexivity. }
  unfold HandleChallenge. unfold bind at 1. unfold modify at 1.
  unfold bind at 1. rewrite Hpub.
  unfold bind at 1. rewrite Hload. cbn [negb].
  unfold bind at 1. unfold gets at 1. rewrite Hch.
  unfold bind at 1. rewrite Hsign. cbn [negb].
  unfold bind at 1.
  destruct (Unload_result s2) as (s3 & -> & Hun & Hc3). rewrite Hconn2 in Hc3.
  unfold SendAuthentication, bind, Guard_Assert.
  destruct (Z.leb_spec sigsize UINT32_MAX); [|lia]. unfold ret.
  unfold set_AuthStatus, QueuePacket.
  erewrite on_connection_present by exact Hc3.
  erewrite on_connection_present by (destruct s3 as [w []]; reflexivity).
  eexists. split; [reflexivity|].
  destruct s3 as [w []]; split; [exact Hun | reflexivity].
Qed.

(** C10.  The private key is loaded and [Sign] fails.  [SendPassword] goes
    on to [SendAuthentication] with the null signature pointer and the
    length [Sign] left behind; when that length passes the size guard, an
    authentication packet carrying them is queued, and neither a disconnect
    reason is set nor the socket disconnected.  [HandleChallenge] in the same
    situation sets the disconnect reason "verification failure", disconnects
    the socket and queues no packet. *)
Theorem sign_failure_handled_differently
    (password : string) (s s2 : State) (pubkey : string)
    (signature : option (list byte)) (sigsize : Z) (conn : NetworkConnection) :
  _serverConnection (client s) = Some conn ->
  NetworkKey_PublicKeyString X s = Ret pubkey s ->
  LoadPrivateKey X s = Ret true s2 ->
  NetworkKey_Sign X (_challenge (client s)) (indeterminate_size X) s2
    = Ret (false, signature, sigsize) s2 ->
  signature = None /\
  SendPassword X password s =
    SendAuthentication X (player_name X) password pubkey None sigsize
      (final_state (NetworkKey_Unload s2)) /\
  (sigsize <= UINT32_MAX ->
   exists s',
     SendPassword X password s = Ret tt s' /\
     _serverConnection (client s') =
       Some (mkNetworkConnection (Socket conn) NETWORK_AUTH_REQUESTED
               (LastDisconnectReason conn)
               (QueuedPackets conn ++
                [[ PCommand NETWORK_COMMAND_AUTH;
                   PString (NETWORK_STREAM_ID X);
                   PString (player_name X);
                   PString password;
                   PString pubkey;
                   PUint32 (to_uint32 sigsize);
                   PRaw None sigsize ]]))) /\
  (exists s',
     HandleChallenge X (_challenge (client s)) s = Ret tt s' /\
     _serverConnection (client s') =
       Some (mkNetworkConnection (mkTcpSocket (sock_peer (Socket conn)) true)
               (AuthStatus conn) (Some STR_MULTIPLAYER_VERIFICATION_FAILURE)
               (QueuedPackets conn))).
Proof.
  intros Hconn Hpub Hload Hsign.
  pose proof (key_only_LoadPrivateKey X s) as Hstep.
  rewrite Hload in Hstep. simpl in Hstep.
  split; [eapply Sign_failure_null, Hsign|].
  split; [eapply SendPassword_sign_failure; eassumption|].
  split.
  - intros Hguard.
    rewrite (SendPassword_sign_failure password s s2 pubkey signature sigsize Hpub Hload Hsign).
    destruct (Unload_result s2) as (s3 & -> & _ & Hc3). cbn [final_state].
    rewrite (key_step_connection _ _ Hstep), Hconn in Hc3.
    unfold SendAuthentication, bind, Guard_Assert.
    destruct (Z.leb_spec sigsize UINT32_MAX); [|lia]. unfold ret.
    unfold set_AuthStatus, QueuePacket.
    erewrite on_connection_present by exact Hc3.
    erewrite on_connection_present by (destruct s3 as [w []]; reflexivity).
    eexists. split; [reflexivity|]. destruct s3 as [w []]; reflexivity.
  - rewrite <- (on_client_set_challenge_same s) in Hpub, Hload.
    destruct (HandleChallenge_sign_failure _ _ _ _ _ _ _ Hconn Hpub Hload Hsign)
      as (s' & Hrun & _ & Hc).
    exists s'. split; assumption.
Qed.

End Authentication.

Lemma HandleChallenge_sign_failure_keeps_key_witness :
  exists s',
    HandleChallenge (Demo.externals false true) Demo.challenge Demo.in_session = Ret tt s' /\
    m_key (_key (client s')) <> None.
Proof.
  apply (HandleChallenge_sign_failure_keeps_key (Demo.externals false true)
           Demo.challenge Demo.in_session
           (final_state (LoadPrivateKey (Demo.externals false true)
                           (on_client (set_challenge Demo.challenge) Demo.in_session)))
           "PUBLIC KEY" None 0 Demo.connection).
  - reflexivity.
  - vm_compute. reflexivity.
  - vm_compute. reflexivity.
  - vm_compute. reflexivity.
Defined.

Lemma sign_failure_handled_differently_witness :
  let X := Demo.externals false true in
  let s := Demo.in_session in
  let s2 := final_state (LoadPrivateKey X s) in
  @None (list byte) = None /\
  SendPassword X "secret" s =
    SendAuthentication X (player_name X) "secret" "PUBLIC KEY" None 0
      (final_state (NetworkKey_Unload s2)) /\
  (0 <= UINT32_MAX ->
   exists s',
     SendPassword X "secret" s = Ret tt s' /\
     _serverConnection (client s') =
       Some (mkNetworkConnection (Socket Demo.connection) NETWORK_AUTH_REQUESTED
               (LastDisconnectReason Demo.connection)
               (QueuedPackets Demo.connection ++
                [[ PCommand NETWORK_COMMAND_AUTH;
                   PString (NETWORK_STREAM_ID X);
                   PString (player_name X);
                   PString "secret";
                   PString "PUBLIC KEY";
                   PUint32 (to_uint32 0);
                   PRaw None 0 ]]))) /\
  (exists s',
     HandleChallenge X (_challenge (client s)) s = Ret tt s' /\
     _serverConnection (client s') =
       Some (mkNetworkConnection (mkTcpSocket (sock_peer (Socket Demo.connection)) true)
               (AuthStatus Demo.connection) (Some STR_MULTIPLAYER_VERIFICATION_FAILURE)
               (QueuedPackets Demo.connection))).
Proof.
  apply (sign_failure_handled_differently (Demo.externals false true) "secret"
           Demo.in_session
           (final_state (LoadPrivateKey (Demo.externals false true) Demo.in_session))
           "PUBLIC KEY" None 0 Demo.connection).
  - reflexivity.
  - vm_compute. reflexivity.
  - vm_compute. reflexivity.
  - vm_compute. reflexivity.
Defined.

(** ** Further properties of the embedded code *)

Section StoreSteps.

Lemma store_step_refl s : store_step s s.
Proof.
  destruct s as [[m t fs l] c]. exists (m_key (_key c)), l.
  destruct c as [a1 a2 a3 [ctx k] a5 a6 a7 a8 a9 a10 a11 a12 a13]; reflexivity.
Qed.

Lemma store_step_trans s1 s2 s3 : store_step s1 s2 -> store_step s2 s3 -> store_step s1 s3.
Proof.
  intros (k1 & l1 & ->) (k2 & l2 & ->).
  exists k2, l2. destruct s1 as [[m t fs l] c]; destruct c; reflexivity.
Qed.

Lemma store_step_key_step s s' : store_step s s' -> key_step s s'.
Proof.
  intros (k & l & ->). exists (mkNetworkKey (m_ctx (_key (client s))) k), l, (files (world s)).
  destruct s as [[m t fs l0] c]; reflexivity.
Qed.

Lemma store_step_files s s' : store_step s s' -> files (world s') = files (world s).
Proof. intros (k & l & ->). destruct s as [[m t fs l0] c]; reflexivity. Qed.

Lemma store_only_ret {A} (a : A) : store_only (ret a).
Proof. intros s. apply store_step_refl. Qed.

Lemma store_only_abort {A} f : store_only (@abort State A f).
Proof. intros s. apply store_step_refl. Qed.

Lemma store_only_bind {A B} (c : M State A) (k : A -> M State B) :
  store_only c -> (forall a, store_only (k a)) -> store_only (bind c k).
Proof.
  intros Hc Hk s. unfold bind. specialize (Hc s).
  destruct (c s) as [a s'|f s']; simpl in *; [|exact Hc].
  eapply store_step_trans; [exact Hc | apply Hk].
Qed.

Lemma store_only_gets {A} (p : State -> A) : store_only (gets p).
Proof. intros s. apply store_step_refl. Qed.

Lemma store_only_emit e : store_only (emit e).
Proof.
  intros [[m t fs l] c]. exists (m_key (_key c)), (l ++ [e]).
  destruct c as [a1 a2 a3 [ctx k] a5 a6 a7 a8 a9 a10 a11 a12 a13]; reflexivity.
Qed.

Lemma store_only_put_m_key k : store_only (put_m_key k).
Proof.
  intros [[m t fs l] c]. exists k, l.
  destruct c; reflexivity.
Qed.

End StoreSteps.

Ltac store_only_tac :=
  repeat first
    [ apply store_only_ret
    | apply store_only_abort
    | apply store_only_gets
    | apply store_only_emit
    | apply store_only_put_m_key
    | apply store_only_bind; [|intros]
    | match goal with
      | |- store_only (if ?b then _ else _) => destruct b
      | |- store_only (match ?x with _ => _ end) => destruct x
      | |- store_only (let '(_, _) := ?x in _) => destruct x
      end ].

Section KeyStore.

Context (X : Externals).

Lemma store_only_Unload : store_only NetworkKey_Unload.
Proof. unfold NetworkKey_Unload, key_handle, EVP_PKEY_free. store_only_tac. Qed.

Lemma store_only_Generate : store_only (NetworkKey_Generate X).
Proof. unfold NetworkKey_Generate. store_only_tac. Qed.

Lemma store_only_LoadPrivate file : store_only (NetworkKey_LoadPrivate X file).
Proof.
  unfold NetworkKey_LoadPrivate, read_whole, key_handle, EVP_PKEY_free.
  store_only_tac.
Qed.

Lemma store_only_LoadPublic file : store_only (NetworkKey_LoadPublic X file).
Proof.
  unfold NetworkKey_LoadPublic, read_whole, key_handle, EVP_PKEY_free.
  store_only_tac.
Qed.

Lemma store_only_LoadPrivateKey : store_only (LoadPrivateKey X).
Proof.
  unfold LoadPrivateKey, platform_file_exists, SDL_RWFromFile_rb.
  repeat first [ apply store_only_LoadPrivate | progress store_only_tac ].
Qed.

(** What [LoadPrivate] does for a file whose size is not below -1, and
    what it leaves in the key store. *)
Lemma LoadPrivate_outcome (f : SDL_RWops) (s : State) :
  -1 <= rw_size f ->
  exists s',
    match private_key_outcome X f with
    | LoadRefused =>
        NetworkKey_LoadPrivate X (Some f) s = Ret false s' /\
        _key (client s') = _key (client s)
    | LoadNullKey =>
        NetworkKey_LoadPrivate X (Some f) s = Abort NullDereference s' /\
        _key (client s') = _key (client s)
    | LoadInstalled rsa =>
        NetworkKey_LoadPrivate X (Some f) s = Ret true s' /\
        m_key (_key (client s')) = Some (mkEVP_PKEY (Some rsa))
    end.
Proof.
  intros Hsize.
  unfold NetworkKey_LoadPrivate, private_key_outcome, key_file_bytes, read_whole,
    key_handle, EVP_PKEY_free, put_m_key, bind, emit, gets, modify, ret, abort.
  cbv zeta.
  destruct (Z.eqb_spec (rw_size f) (-1)) as [|Hne].
  { eexists. split; reflexivity. }
  destruct (rw_size f >? KEY_SIZE_CEILING).
  { eexists. split; reflexivity. }
  destruct (Z.ltb_spec (rw_size f) 0); [lia|]. cbv beta iota.
  set (bytes := take (Z.to_nat (rw_size f)) (rw_data f)).
  destruct (BIO_new_mem_buf X bytes); cbn [negb]; cbv beta iota.
  - destruct (PEM_read_bio_RSAPrivateKey X bytes) as [rsa|].
    + destruct (RSA_check_key X (Some rsa) =? 0).
      * eexists. split; [reflexivity|]. destruct s as [w []]; reflexivity.
      * destruct s as [w c].
        destruct c as [a1 a2 a3 [ctx [pk|]] a5 a6 a7 a8 a9 a10 a11 a12 a13];
          simpl; eexists; split; reflexivity.
    + eexists. split; [reflexivity|]. destruct s as [w []]; reflexivity.
  - eexists. split; [reflexivity|]. destruct s as [w []]; reflexivity.
Qed.

Lemma platform_file_exists_present path (s : State) (f : File) :
  files (world s) !! path = Some f -> platform_file_exists path s = Ret true s.
Proof.
  intros H. unfold platform_file_exists, gets.
  rewrite bool_decide_eq_true_2 by (rewrite H; eexists; reflexivity). reflexivity.
Qed.

Lemma platform_file_exists_absent path (s : State) :
  files (world s) !! path = None -> platform_file_exists path s = Ret false s.
Proof.
  intros H. unfold platform_file_exists, gets.
  rewrite bool_decide_eq_false_2; [reflexivity|]. rewrite H. intros [x Hx]. discriminate.
Qed.

Lemma SDL_RWFromFile_rb_present path (s : State) (f : File) :
  files (world s) !! path = Some f ->
  SDL_RWFromFile_rb path s = Ret (if file_readable f then Some (file_rw f) else None) s.
Proof. intros H. unfold SDL_RWFromFile_rb, gets. rewrite H. reflexivity. Qed.

(** Key setup when the private key file is there and opens. *)
Lemma SetupUserKey_load_branch (s : State) (f : File) :
  files (world s) !! GetPrivateKeyPath X (player_name X) = Some f ->
  file_readable f = true ->
  -1 <= rw_size (file_rw f) ->
  exists s',
    store_step s s' /\
    match private_key_outcome X (file_rw f) with
    | LoadNullKey =>
        SetupUserKey X s = Abort NullDereference s' /\
        _key (client s') = _key (client s)
    | outcome =>
        SetupUserKey X s = Ret (private_key_accepted outcome) s' /\
        unloaded s'
    end.
Proof.
  intros Hfile Hread Hsize.
  assert (Hsetup : SetupUserKey X s =
            match NetworkKey_LoadPrivate X (Some (file_rw f)) s with
            | Ret ok s1 =>
                match NetworkKey_Unload s1 with
                | Ret _ s2 => Ret ok s2
                | Abort e s2 => Abort e s2
                end
            | Abort e s1 => Abort e s1
            end).
  { unfold SetupUserKey. unfold bind at 1.
    rewrite (platform_file_exists_present _ _ _ Hfile). cbn [negb].
    unfold bind at 1. rewrite (SDL_RWFromFile_rb_present _ _ _ Hfile), Hread.
    reflexivity. }
  rewrite Hsetup. clear Hsetup.
  destruct (LoadPrivate_outcome (file_rw f) s Hsize) as (s1 & Hload).
  pose proof (store_only_LoadPrivate (Some (file_rw f)) s) as Hstep1.
  pose proof (store_only_Unload s1) as Hstep2.
  destruct (Unload_result s1) as (s2 & Hun & Hunl & _).
  rewrite Hun in Hstep2. cbn [final_state] in Hstep2.
  destruct (private_key_outcome X (file_rw f)) as [| |rsa];
    destruct Hload as [Hload Hkey]; rewrite Hload in *; cbn [final_state] in Hstep1.
  - exists s2. split; [eapply store_step_trans; eassumption|].
    rewrite Hun. split; [reflexivity|exact Hunl].
  - exists s1. split; [exact Hstep1|]. split; [reflexivity|exact Hkey].
  - exists s2. split; [eapply store_step_trans; eassumption|].
    rewrite Hun. split; [reflexivity|exact Hunl].
Qed.

(** X1.  Key setup on a private key file that exists, opens and reports a
    size that is not below -1.  When the content reaches the PEM parser and
    does not parse, key setup hands the null pointer to [RSA_check_key]: it
    stops there, before [Unload], with the key store and every other field
    of the client as they were.  In every other case key setup returns
    whether [LoadPrivate] put a key into the key store (size known, at most
    4 MiB, memory BIO made, content parsed, self-check not 0) and ends with
    the key store unloaded.  The files, the network mode and every field of
    the client but the key store are as before in all cases. *)
Theorem SetupUserKey_existing_key (s : State) (f : File) :
  files (world s) !! GetPrivateKeyPath X (player_name X) = Some f ->
  file_readable f = true ->
  -1 <= rw_size (file_rw f) ->
  exists l,
    SetupUserKey X s =
    match private_key_outcome X (file_rw f) with
    | LoadNullKey =>
        Abort NullDereference (mkState (set_log l (world s)) (client s))
    | outcome =>
        Ret (private_key_accepted outcome)
            (mkState (set_log l (world s))
                     (set_key (mkNetworkKey (m_ctx (_key (client s))) None) (client s)))
    end.
Proof.
  intros Hfile Hread Hsize.
  destruct (SetupUserKey_load_branch s f Hfile Hread Hsize) as (s' & Hstep & Hrun).
  destruct Hstep as (k & l & ->). exists l.
  destruct (private_key_outcome X (file_rw f)) as [| |rsa];
    destruct Hrun as [Hrun Hun]; rewrite Hrun;
    unfold unloaded in Hun; destruct s as [w c]; destruct c as [a1 a2 a3 [ctx pk] a5 a6 a7 a8 a9 a10 a11 a12 a13];
    cbn in Hun |- *.
  - subst k. reflexivity.
  - injection Hun as ->. reflexivity.
  - subst k. reflexivity.
Qed.

(** X2.  [LoadPrivateKey] and key setup treat a private key file that
    cannot be opened differently.  Without the file [LoadPrivateKey] returns
    failure and changes nothing.  With a file that exists but does not open,
    [LoadPrivateKey] hands the null handle to [LoadPrivate], which
    dereferences it, while key setup tests the handle and returns failure;
    neither changes the state. *)
Theorem LoadPrivateKey_missing_or_unreadable (s : State) :
  (files (world s) !! GetPrivateKeyPath X (player_name X) = None ->
   LoadPrivateKey X s = Ret false s) /\
  (forall f,
     files (world s) !! GetPrivateKeyPath X (player_name X) = Some f ->
     file_readable f = false ->
     LoadPrivateKey X s = Abort NullDereference s /\
     SetupUserKey X s = Ret false s).
Proof.
  split.
  - intros Hnone. unfold LoadPrivateKey. unfold bind.
    rewrite (platform_file_exists_absent _ _ Hnone). reflexivity.
  - intros f Hfile Hread. split.
    + unfold LoadPrivateKey. unfold bind at 1.
      rewrite (platform_file_exists_present _ _ _ Hfile).
      unfold bind at 1. rewrite (SDL_RWFromFile_rb_present _ _ _ Hfile), Hread.
      reflexivity.
    + unfold SetupUserKey. unfold bind at 1.
      rewrite (platform_file_exists_present _ _ _ Hfile). cbn [negb].
      unfold bind at 1. rewrite (SDL_RWFromFile_rb_present _ _ _ Hfile), Hread.
      reflexivity.
Qed.

Lemma PublicKeyString_unloaded (s : State) :
  unloaded s -> NetworkKey_PublicKeyString X s = Abort NullString s.
Proof.
  intros Hun. unfold NetworkKey_PublicKeyString, key_handle, bind, gets.
  rewrite Hun. reflexivity.
Qed.

Lemma HandleChallenge_unloaded challenge (s : State) :
  unloaded s ->
  HandleChallenge X challenge s = Abort NullString (on_client (set_challenge challenge) s).
Proof.
  intros Hun. unfold HandleChallenge. unfold bind at 1. unfold modify at 1.
  unfold bind at 1. rewrite PublicKeyString_unloaded; [reflexivity|].
  unfold unloaded in *. destruct s as [w []]; exact Hun.
Qed.

(** X3.  Both handlers ask the key store for the public key before they
    load the private key.  With an unloaded key store neither of them gets
    further than that: [HandleChallenge] has stored the challenge, and
    nothing is loaded, sent or disconnected. *)
Theorem handlers_need_loaded_key (challenge : list byte) (password : string) (s : State) :
  unloaded s ->
  HandleChallenge X challenge s = Abort NullString (on_client (set_challenge challenge) s) /\
  SendPassword X password s = Abort NullString s.
Proof.
  intros Hun. split; [apply HandleChallenge_unloaded, Hun|].
  unfold SendPassword. unfold bind at 1.
  rewrite PublicKeyString_unloaded by exact Hun. reflexivity.
Qed.

(** X4.  A connect on an existing key cannot be followed by a challenge
    response.  [Begin], on a client without a connection whose key file
    exists and opens, sets the client mode and then runs key setup.  When
    the content of the key file reaches the PEM parser and does not parse,
    [Begin] stops in key setup at the null pointer handed to
    [RSA_check_key].  In every other case [Begin] returns whether the key
    file was accepted and leaves the key store unloaded; [HandleChallenge]
    on the state [Begin] returned stops at [PublicKeyString] without a
    packet queued. *)
Theorem Begin_then_HandleChallenge (host : string) (port : Z) (s : State) (f : File)
    (challenge : list byte) :
  _serverConnection (client s) = None ->
  files (world s) !! GetPrivateKeyPath X (player_name X) = Some f ->
  file_readable f = true ->
  -1 <= rw_size (file_rw f) ->
  exists s1,
    gNetworkMode (world s1) = NETWORK_MODE_CLIENT /\
    match private_key_outcome X (file_rw f) with
    | LoadNullKey => Begin X host port s = Abort NullDereference s1
    | outcome =>
        Begin X host port s = Ret (private_key_accepted outcome) s1 /\
        unloaded s1 /\
        HandleChallenge X challenge s1 =
          Abort NullString (on_client (set_challenge challenge) s1) /\
        (exists conn,
           _serverConnection (client (on_client (set_challenge challenge) s1)) = Some conn /\
           QueuedPackets conn = [])
    end.
Proof.
  intros Hconn Hfile Hread Hsize. rewrite Begin_unfold, Hconn.
  assert (Hfile' : files (world (connecting_state host port s))
                     !! GetPrivateKeyPath X (player_name X) = Some f).
  { destruct s as [[m t fs l] c]. exact Hfile. }
  destruct (SetupUserKey_load_branch _ f Hfile' Hread Hsize) as (s1 & Hstep & Hrun).
  exists s1.
  pose proof (store_step_key_step _ _ Hstep) as Hk.
  split; [rewrite (key_step_mode _ _ Hk); reflexivity|].
  assert (Hafter : unloaded s1 ->
            HandleChallenge X challenge s1 =
              Abort NullString (on_client (set_challenge challenge) s1) /\
            (exists conn,
               _serverConnection (client (on_client (set_challenge challenge) s1))
                 = Some conn /\
               QueuedPackets conn = [])).
  { intros Hun. split; [apply HandleChallenge_unloaded, Hun|].
    exists (mkNetworkConnection (mkTcpSocket (Some (host, port)) false)
              NETWORK_AUTH_NONE None []).
    split; [|reflexivity].
    assert (Hc := key_step_connection _ _ Hk).
    destruct s1 as [w1 c1]. destruct c1. cbn in *. rewrite Hc.
    destruct s as [w []]. reflexivity. }
  destruct (private_key_outcome X (file_rw f)) as [| |rsa]; destruct Hrun as [Hrun Hun].
  - split; [exact Hrun|]. split; [exact Hun|]. apply Hafter, Hun.
  - exact Hrun.
  - split; [exact Hrun|]. split; [exact Hun|]. apply Hafter, Hun.
Qed.

(** X5.  Key setup and [LoadPrivateKey] touch nothing but the key store, the
    log and, for key setup, the files: whether they return or stop, the
    network mode, the tick counter, the connection, the status, the
    challenge, the map buffer, the tick anchor and the command queue are as
    before; [LoadPrivateKey] leaves the files as they were, too. *)
Theorem key_methods_frame (s : State) :
  (exists k l fs,
     final_state (SetupUserKey X s) =
     mkState (mkWorld (gNetworkMode (world s)) (gCurrentTicks (world s)) fs l)
             (set_key k (client s))) /\
  (exists k l,
     final_state (LoadPrivateKey X s) =
     mkState (mkWorld (gNetworkMode (world s)) (gCurrentTicks (world s))
                      (files (world s)) l)
             (set_key k (client s))).
Proof.
  split.
  - apply (key_only_SetupUserKey X s).
  - destruct (store_only_LoadPrivateKey s) as (k & l & Heq).
    exists (mkNetworkKey (m_ctx (_key (client s))) k), l. rewrite Heq.
    destruct s as [[m t fs l0] c]; reflexivity.
Qed.

Lemma Generate_failure_unchanged (s s' : State) :
  NetworkKey_Generate X s = Ret false s' -> s' = s.
Proof.
  unfold NetworkKey_Generate, bind, gets, ret.
  destruct (m_ctx (_key (client s))); [|intros H; injection H as <-; reflexivity].
  destruct (EVP_PKEY_CTX_set_rsa_keygen_bits X KEY_LENGTH_BITS =? 0);
    [intros H; injection H as <-; reflexivity|].
  destruct (EVP_PKEY_keygen_init X <=? 0); [intros H; injection H as <-; reflexivity|].
  destruct (EVP_PKEY_keygen X); [|intros H; injection H as <-; reflexivity].
  unfold emit, modify, put_m_key. discriminate.
Qed.

Lemma SDL_RWFromFile_wb_opens path (s : State) :
  can_open_for_writing X path = true ->
  SDL_RWFromFile_wb X path s =
  Ret (Some path)
      (on_world (fun w => set_files (<[path := mkFile (mkRWops 0 []) true]> (files w)) w) s).
Proof. intros H. unfold SDL_RWFromFile_wb. rewrite H. reflexivity. Qed.

Lemma SavePrivate_unloaded path (s : State) :
  unloaded s -> NetworkKey_SavePrivate X path s = Ret false s.
Proof.
  intros Hun. unfold NetworkKey_SavePrivate, key_handle, bind, gets. rewrite Hun.
  reflexivity.
Qed.

(** X6.  Key setup does not look at the result of [Generate].  On a first
    run (no private key file) where generation fails and the key store is
    empty, key setup still creates the private key file, empty, and then
    stops in [PublicKeyHash], which has no key to encode: it does not return
    failure, and the empty file is what the next start finds. *)
Theorem SetupUserKey_generation_failure (s s1 : State) :
  files (world s) !! GetPrivateKeyPath X (player_name X) = None ->
  unloaded s ->
  NetworkKey_Generate X s = Ret false s1 ->
  platform_ensure_directory_exists X (GetKeysDirectory X) = true ->
  can_open_for_writing X (GetPrivateKeyPath X (player_name X)) = true ->
  exists s',
    SetupUserKey X s = Abort NullString s' /\
    files (world s') =
      <[GetPrivateKeyPath X (player_name X) := mkFile (mkRWops 0 []) true]>
        (files (world s)) /\
    unloaded s'.
Proof.
  intros Hnone Hun Hgen Hdir Hopen.
  pose proof (Generate_failure_unchanged _ _ Hgen) as ->.
  unfold SetupUserKey. unfold bind at 1.
  rewrite (platform_file_exists_absent _ _ Hnone). cbn [negb].
  unfold bind at 1. rewrite Hgen. rewrite Hdir. cbn [negb].
  unfold bind at 1. rewrite (SDL_RWFromFile_wb_opens _ _ Hopen).
  unfold bind at 1. rewrite SavePrivate_unloaded
    by (unfold unloaded in *; destruct s as [[m t fs l] c]; exact Hun).
  unfold bind at 1. unfold NetworkKey_PublicKeyHash. unfold bind at 1.
  rewrite PublicKeyString_unloaded
    by (unfold unloaded in *; destruct s as [[m t fs l] c]; exact Hun).
  eexists. split; [reflexivity|].
  destruct s as [[m t fs l] c]. split; [reflexivity | exact Hun].
Qed.

Lemma Generate_success (s : State) ctx pk :
  m_ctx (_key (client s)) = Some ctx ->
  EVP_PKEY_CTX_set_rsa_keygen_bits X KEY_LENGTH_BITS <> 0 ->
  0 < EVP_PKEY_keygen_init X ->
  EVP_PKEY_keygen X = Some pk ->
  NetworkKey_Generate X s =
  Ret true (on_client (fun c => set_key (mkNetworkKey (m_ctx (_key c)) (Some pk)) c)
              (on_world (fun w => set_log (log w ++ [EvKeygen]) w) s)).
Proof.
  intros Hctx Hbits Hinit Hgen. unfold NetworkKey_Generate, bind, gets. rewrite Hctx.
  destruct (Z.eqb_spec (EVP_PKEY_CTX_set_rsa_keygen_bits X KEY_LENGTH_BITS) 0);
    [contradiction|].
  destruct (Z.leb_spec (EVP_PKEY_keygen_init X) 0); [lia|].
  rewrite Hgen. reflexivity.
Qed.

Lemma SavePrivate_success path (s : State) pk rsa pem :
  m_key (_key (client s)) = Some pk ->
  pkey_rsa pk = Some rsa ->
  RSA_check_key X (Some rsa) <> 0 ->
  BIO_new_mem X = true ->
  PEM_write_bio_RSAPrivateKey X rsa = (1, pem) ->
  NetworkKey_SavePrivate X path s =
  Ret true (on_world (fun w =>
    set_files (<[path := mkFile (mkRWops (Z.of_nat (length pem)) pem) true]> (files w)) w) s).
Proof.
  intros Hkey Hrsa Hcheck Hbio Hpem.
  unfold NetworkKey_SavePrivate, key_handle, bind, gets. rewrite Hkey, Hrsa.
  destruct (Z.eqb_spec (RSA_check_key X (Some rsa)) 0); [contradiction|].
  rewrite Hbio, Hpem. reflexivity.
Qed.

Lemma SavePublic_success path (s : State) pk rsa pem :
  m_key (_key (client s)) = Some pk ->
  pkey_rsa pk = Some rsa ->
  BIO_new_mem X = true ->
  PEM_write_bio_RSAPublicKey X rsa = (1, pem) ->
  NetworkKey_SavePublic X path s =
  Ret true (on_world (fun w =>
    set_files (<[path := mkFile (mkRWops (Z.of_nat (length pem)) pem) true]> (files w)) w) s).
Proof.
  intros Hkey Hrsa Hbio Hpem.
  unfold NetworkKey_SavePublic, key_handle, bind, gets. rewrite Hkey, Hrsa, Hbio, Hpem.
  reflexivity.
Qed.

Lemma PublicKeyString_loaded (s : State) pk rsa pem :
  m_key (_key (client s)) = Some pk ->
  pkey_rsa pk = Some rsa ->
  BIO_new_mem X = true ->
  PEM_write_bio_RSAPublicKey X rsa = (1, pem) ->
  NetworkKey_PublicKeyString X s = Ret (String.string_of_list_byte (c_str pem)) s.
Proof.
  intros Hkey Hrsa Hbio Hpem.
  unfold NetworkKey_PublicKeyString, key_handle, bind, gets. rewrite Hkey, Hrsa, Hbio, Hpem.
  reflexivity.
Qed.

Lemma PublicKeyHash_success (s : State) key :
  NetworkKey_PublicKeyString X s = Ret key s ->
  key <> EmptyString ->
  0 < EVP_DigestInit_ex_sha1 X ->
  0 < EVP_DigestUpdate X key ->
  NetworkKey_PublicKeyHash X s = Ret (hex_string (EVP_DigestFinal X key)) s.
Proof.
  intros Hpub Hne Hinit Hupd. unfold NetworkKey_PublicKeyHash, bind. rewrite Hpub.
  destruct (String.eqb_spec key EmptyString); [contradiction|].
  destruct (Z.leb_spec (EVP_DigestInit_ex_sha1 X) 0); [lia|].
  destruct (Z.leb_spec (EVP_DigestUpdate X key) 0); [lia|].
  reflexivity.
Qed.

(** X7.  A first run that goes well.  Without a private key file, when key
    generation and every step of encoding and writing succeed, key setup
    returns success, the private key file holds the private encoding, the
    public key file, named after the hash of the public key text, holds the
    public encoding, and the generated key, private part included, is still
    in the key store when key setup returns: this branch has no [Unload]. *)
Theorem SetupUserKey_first_run (s : State) ctx pk rsa private_pem public_pem :
  let private_path := GetPrivateKeyPath X (player_name X) in
  let key_text := String.string_of_list_byte (c_str public_pem) in
  let public_path :=
    GetPublicKeyPath X (player_name X) (hex_string (EVP_DigestFinal X key_text)) in
  files (world s) !! private_path = None ->
  m_ctx (_key (client s)) = Some ctx ->
  EVP_PKEY_CTX_set_rsa_keygen_bits X KEY_LENGTH_BITS <> 0 ->
  0 < EVP_PKEY_keygen_init X ->
  EVP_PKEY_keygen X = Some pk ->
  pkey_rsa pk = Some rsa ->
  platform_ensure_directory_exists X (GetKeysDirectory X) = true ->
  can_open_for_writing X private_path = true ->
  can_open_for_writing X public_path = true ->
  RSA_check_key X (Some rsa) <> 0 ->
  BIO_new_mem X = true ->
  PEM_write_bio_RSAPrivateKey X rsa = (1, private_pem) ->
  PEM_write_bio_RSAPublicKey X rsa = (1, public_pem) ->
  key_text <> EmptyString ->
  0 < EVP_DigestInit_ex_sha1 X ->
  0 < EVP_DigestUpdate X key_text ->
  exists s',
    SetupUserKey X s = Ret true s' /\
    files (world s') =
      <[public_path := mkFile (mkRWops (Z.of_nat (length public_pem)) public_pem) true]>
        (<[private_path :=
             mkFile (mkRWops (Z.of_nat (length private_pem)) private_pem) true]>
           (files (world s))) /\
    m_key (_key (client s')) = Some pk.
Proof.
  intros private_path key_text public_path
    Hnone Hctx Hbits Hinit Hgen Hrsa Hdir Hopen1 Hopen2 Hcheck Hbio Hpriv Hpub Hne Hd1 Hd2.
  unfold SetupUserKey. fold private_path. unfold bind at 1.
  rewrite (platform_file_exists_absent _ _ Hnone). cbn [negb].
  unfold bind at 1. rewrite (Generate_success _ _ _ Hctx Hbits Hinit Hgen).
  rewrite Hdir. cbn [negb].
  unfold bind at 1. rewrite (SDL_RWFromFile_wb_opens _ _ Hopen1).
  set (s1 := on_world _ (on_client _ (on_world _ s))).
  assert (Hkey1 : m_key (_key (client s1)) = Some pk).
  { subst s1. destruct s as [[m t fs l] c]. destruct c. reflexivity. }
  unfold bind at 1. rewrite (SavePrivate_success _ s1 _ _ _ Hkey1 Hrsa Hcheck Hbio Hpriv).
  set (s2 := on_world _ s1).
  assert (Hkey2 : m_key (_key (client s2)) = Some pk) by exact Hkey1.
  unfold bind at 1.
  rewrite (PublicKeyHash_success s2 key_text
             (PublicKeyString_loaded s2 _ _ _ Hkey2 Hrsa Hbio Hpub) Hne Hd1 Hd2).
  fold public_path.
  unfold bind at 1. rewrite (SDL_RWFromFile_wb_opens _ _ Hopen2).
  set (s3 := on_world _ s2).
  assert (Hkey3 : m_key (_key (client s3)) = Some pk) by exact Hkey1.
  unfold bind at 1. rewrite (SavePublic_success _ s3 _ _ _ Hkey3 Hrsa Hbio Hpub).
  eexists. split; [reflexivity|]. split; [|exact Hkey1].
  subst s3 s2 s1. destruct s as [[m t fs l] c]. cbn.
  rewrite !insert_insert_eq. reflexivity.
Qed.

(** X8.  [LoadPublic] makes no check of what it parsed.  For a file within
    the ceiling and a memory BIO that could be made it returns success
    whatever the file holds.  When the content does not parse, the key store
    then holds a key object without a key: [PublicKeyString] has nothing to
    return, and [SavePublic] and [SavePrivate] return failure without
    writing. *)
Theorem LoadPublic_accepts_any_content (f : SDL_RWops) (s : State) :
  0 <= rw_size f <= 4 * 1024 * 1024 ->
  BIO_new_mem_buf X (key_file_bytes f) = true ->
  exists s',
    NetworkKey_LoadPublic X (Some f) s = Ret true s' /\
    m_key (_key (client s')) =
      Some (mkEVP_PKEY (PEM_read_bio_RSAPublicKey X (key_file_bytes f))) /\
    (PEM_read_bio_RSAPublicKey X (key_file_bytes f) = None ->
     NetworkKey_PublicKeyString X s' = Abort NullString s' /\
     forall path,
       NetworkKey_SavePublic X path s' = Ret false s' /\
       NetworkKey_SavePrivate X path s' = Ret false s').
Proof.
  intros Hsize Hbio. unfold NetworkKey_LoadPublic, KEY_SIZE_CEILING.
  destruct (Z.eqb_spec (rw_size f) (-1)); [lia|].
  destruct (Z.gtb_spec (rw_size f) (4 * 1024 * 1024)); [lia|].
  unfold bind at 1. unfold read_whole.
  destruct (Z.ltb_spec (rw_size f) 0); [lia|].
  unfold bind at 1. unfold emit at 1. unfold modify, ret.
  unfold key_file_bytes in *. rewrite Hbio. cbn [negb].
  unfold bind, key_handle, gets, EVP_PKEY_free, put_m_key, emit, modify, ret.
  destruct s as [w c].
  destruct c as [a1 a2 a3 [ctx [pk|]] a5 a6 a7 a8 a9 a10 a11 a12 a13];
    cbn; (eexists; split; [reflexivity|]); (split; [reflexivity|]);
    intros Hnone;
    unfold NetworkKey_PublicKeyString, NetworkKey_SavePublic, NetworkKey_SavePrivate,
      key_handle, bind, gets; cbn; rewrite Hnone; repeat split.
Qed.

(** X9.  What [SavePrivate] writes is what [LoadPrivate] reads.  With a
    key in the key store that passes the self-check, and an encoding of at
    most 4 MiB, [SavePrivate] returns success and the file at the path holds
    the encoding with its length as size; opening that file for reading and
    loading it hands the PEM parser exactly the encoding.  When the parser
    gives a key, the load succeeds exactly when the memory BIO can be made
    and the self-check of the parsed key is not 0, the key store then
    holding the parsed key.  When the parser gives nothing, the load returns
    failure if the memory BIO cannot be made and otherwise hands the null
    pointer to [RSA_check_key]; the key store stays as [SavePrivate] left
    it. *)
Theorem SavePrivate_then_LoadPrivate (path : string) (s : State) pk rsa pem :
  m_key (_key (client s)) = Some pk ->
  pkey_rsa pk = Some rsa ->
  RSA_check_key X (Some rsa) <> 0 ->
  BIO_new_mem X = true ->
  PEM_write_bio_RSAPrivateKey X rsa = (1, pem) ->
  Z.of_nat (length pem) <= 4 * 1024 * 1024 ->
  let file := mkRWops (Z.of_nat (length pem)) pem in
  exists s1 s2,
    NetworkKey_SavePrivate X path s = Ret true s1 /\
    SDL_RWFromFile_rb path s1 = Ret (Some file) s1 /\
    key_file_bytes file = pem /\
    match PEM_read_bio_RSAPrivateKey X pem with
    | Some parsed =>
        NetworkKey_LoadPrivate X (Some file) s1 =
          Ret (BIO_new_mem_buf X pem &&
               negb (RSA_check_key X (Some parsed) =? 0)) s2 /\
        (BIO_new_mem_buf X pem &&
         negb (RSA_check_key X (Some parsed) =? 0) = true ->
         m_key (_key (client s2)) = Some (mkEVP_PKEY (Some parsed)))
    | None =>
        NetworkKey_LoadPrivate X (Some file) s1 =
          (if BIO_new_mem_buf X pem then Abort NullDereference s2 else Ret false s2) /\
        _key (client s2) = _key (client s1)
    end.
Proof.
  intros Hkey Hrsa Hcheck Hbio Hpem Hlen file.
  assert (Hbytes : key_file_bytes file = pem).
  { unfold key_file_bytes, file. cbn. rewrite Nat2Z.id. apply take_ge. lia. }
  rewrite (SavePrivate_success path s _ _ _ Hkey Hrsa Hcheck Hbio Hpem).
  set (s1 := on_world _ s).
  destruct (LoadPrivate_outcome file s1) as (s2 & Hload).
  { unfold file. cbn. lia. }
  exists s1, s2. split; [reflexivity|]. split.
  { unfold SDL_RWFromFile_rb, gets. subst s1. destruct s as [[m t fs l] c]. cbn.
    rewrite lookup_insert_eq. reflexivity. }
  split; [exact Hbytes|].
  unfold private_key_outcome, KEY_SIZE_CEILING in Hload. rewrite Hbytes in Hload.
  change (rw_size file) with (Z.of_nat (length pem)) in Hload.
  destruct (Z.eqb_spec (Z.of_nat (length pem)) (-1)); [lia|].
  destruct (Z.gtb_spec (Z.of_nat (length pem)) (4 * 1024 * 1024)); [lia|].
  destruct (BIO_new_mem_buf X pem); cbn [negb andb] in *.
  - destruct (PEM_read_bio_RSAPrivateKey X pem) as [parsed|]; [|exact Hload].
    destruct (RSA_check_key X (Some parsed) =? 0); cbn [negb];
      destruct Hload as [Hload Hres]; (split; [exact Hload|]); [discriminate|].
    intros _. exact Hres.
  - destruct (PEM_read_bio_RSAPrivateKey X pem) as [parsed|]; [|exact Hload].
    destruct Hload as [Hload Hres]. split; [exact Hload|discriminate].
Qed.

Lemma unhex_hex02 (b : byte) (rest : string) :
  unhex_string (String.append (hex02 b) rest) =
  match unhex_string rest with
  | Some bytes => Some (b :: bytes)
  | None => None
  end.
Proof. destruct b; reflexivity. Qed.

Lemma unhex_hex_string (digest : list byte) :
  unhex_string (hex_string digest) = Some digest.
Proof.
  induction digest as [|b digest IH]; [reflexivity|].
  change (hex_string (b :: digest)) with (String.append (hex02 b) (hex_string digest)).
  rewrite unhex_hex02, IH. reflexivity.
Qed.

Lemma length_hex_string (digest : list byte) :
  String.length (hex_string digest) = (2 * length digest)%nat.
Proof.
  induction digest as [|b digest IH]; [reflexivity|].
  change (hex_string (b :: digest)) with (String.append (hex02 b) (hex_string digest)).
  set (rest := hex_string digest) in *. unfold hex02. simpl.
  change (String.append EmptyString rest) with rest. rewrite IH. lia.
Qed.

(** X10.  The key hash is the digest written as two lowercase hex digits
    per byte.  When [PublicKeyHash] returns, it has changed nothing, the
    public key text it hashed is not empty, and its result has twice as many
    characters as the digest has bytes and reads back as the digest; two
    different digests never give the same text. *)
Theorem PublicKeyHash_format :
  (forall (s s' : State) (hash : string),
     NetworkKey_PublicKeyHash X s = Ret hash s' ->
     s' = s /\
     exists key,
       NetworkKey_PublicKeyString X s = Ret key s /\
       key <> EmptyString /\
       hash = hex_string (EVP_DigestFinal X key) /\
       String.length hash = (2 * length (EVP_DigestFinal X key))%nat /\
       unhex_string hash = Some (EVP_DigestFinal X key)) /\
  (forall d1 d2 : list byte, hex_string d1 = hex_string d2 -> d1 = d2).
Proof.
  split.
  - intros s s' hash. unfold NetworkKey_PublicKeyHash, bind.
    destruct (NetworkKey_PublicKeyString X s) as [key s1|flt s1] eqn:Hpub; [|discriminate].
    pose proof (PublicKeyString_reads X _ _ _ Hpub) as ->.
    destruct (String.eqb_spec key EmptyString); [discriminate|].
    destruct (EVP_DigestInit_ex_sha1 X <=? 0); [discriminate|].
    destruct (EVP_DigestUpdate X key <=? 0); [discriminate|].
    intros H. injection H as <- <-. split; [reflexivity|].
    exists key. split; [reflexivity|]. split; [assumption|]. split; [reflexivity|].
    split; [apply length_hex_string | apply unhex_hex_string].
  - intros d1 d2 Heq.
    pose proof (unhex_hex_string d1) as H1. rewrite Heq, unhex_hex_string in H1.
    congruence.
Qed.

(** X11.  [Sign] always returns and changes nothing, the key store
    included.  When it fails the signature pointer it leaves is null; when
    it succeeds the signature is there and is no longer than the size it
    reports. *)
Theorem Sign_outcome (md : list byte) (out_size0 : Z) (s : State) :
  exists result signature out_size,
    NetworkKey_Sign X md out_size0 s = Ret (result, signature, out_size) s /\
    (result = false -> signature = None) /\
    (result = true ->
     exists bytes, signature = Some bytes /\ Z.of_nat (length bytes) <= Z.max 0 out_size).
Proof.
  unfold NetworkKey_Sign, key_handle, bind, gets, ret.
  destruct (EVP_MD_CTX_create X); simpl;
    [|do 3 eexists; split; [reflexivity|]; split; [reflexivity|discriminate]].
  destruct (EVP_DigestSignInit X _ =? 1); simpl;
    [|do 3 eexists; split; [reflexivity|]; split; [reflexivity|discriminate]].
  destruct (EVP_DigestSignUpdate X _ md =? 1); simpl;
    [|do 3 eexists; split; [reflexivity|]; split; [reflexivity|discriminate]].
  destruct (EVP_DigestSignFinal_length X _ md out_size0) as [r1 out_size1].
  destruct (r1 =? 1); simpl;
    [|do 3 eexists; split; [reflexivity|]; split; [reflexivity|discriminate]].
  destruct (OPENSSL_malloc X out_size1); simpl;
    [|do 3 eexists; split; [reflexivity|]; split; [reflexivity|discriminate]].
  destruct (EVP_DigestSignFinal X _ md out_size1) as [[r2 sig] out_size2].
  destruct (r2 =? 1); simpl;
    [|do 3 eexists; split; [reflexivity|]; split; [reflexivity|discriminate]].
  do 3 eexists. split; [reflexivity|]. split; [discriminate|].
  intros _. eexists. split; [reflexivity|]. rewrite length_take. lia.
Qed.

End KeyStore.

(** *** More on the map transfer *)

Section MapTransferMore.

Context (X : Externals).

Lemma grown_holds (T : nat) (received buffer : list byte) :
  (length received <= T)%nat ->
  buffer_holds T received buffer ->
  grown T buffer = received ++ replicate (T - length received) x00.
Proof.
  intros Hle [[H1 H2]|H]; subst.
  - rewrite grown_nil. simpl. rewrite Nat.sub_0_r. reflexivity.
  - apply grown_full. rewrite length_app, length_replicate. lia.
Qed.

Lemma overwritten_next (T : nat) (received dataChunk : list byte) :
  (length received + length dataChunk <= T)%nat ->
  overwritten (length received) dataChunk
    (received ++ replicate (T - length received) x00) =
  (received ++ dataChunk) ++ replicate (T - length (received ++ dataChunk)) x00.
Proof.
  intros Hle. unfold overwritten.
  rewrite take_app_length, drop_app_add', drop_replicate, length_app by reflexivity.
  rewrite <- app_assoc. do 3 f_equal. lia.
Qed.

Lemma chunk_stored_log total offset chunk s :
  log (world (chunk_stored total offset chunk s)) =
  log (world s) ++ [progress_event total offset chunk].
Proof. destruct s as [[m t fs l] c]; reflexivity. Qed.

(** Chunks fed in offset order that do not reach the total size: each is
    stored, nothing else happens. *)
Lemma receive_chunks_stored (T : nat) (chunks : list (list byte)) :
  forall (received : list byte) (s : State),
    (length received + length (concat chunks) < T)%nat ->
    buffer_holds T received (_mapBuffer (client s)) ->
    exists buffer,
      receive_chunks X T (length received) chunks s =
        Ret tt (mkState
                  (set_log (log (world s) ++ progress_events T (length received) chunks)
                     (world s))
                  (set_mapBuffer buffer (client s))) /\
      buffer_holds T (received ++ concat chunks) buffer.
Proof.
  induction chunks as [|c chunks IH]; intros received s Hlt Hholds.
  - exists (_mapBuffer (client s)). split.
    + simpl. rewrite app_nil_r. destruct s as [[m t fs l] []]; reflexivity.
    + simpl. rewrite app_nil_r. exact Hholds.
  - simpl in Hlt. rewrite length_app in Hlt.
    assert (Hg := grown_holds T received _ ltac:(lia) Hholds).
    cbn [receive_chunks]. unfold bind.
    rewrite ReceiveMap_unfold
      by (rewrite Hg, length_app, length_replicate; lia).
    destruct (Nat.eqb_spec (length received + length c) T); [lia|].
    destruct (IH (received ++ c) (chunk_stored T (length received) c s))
      as (buffer & Hrun & Hb).
    + rewrite length_app. lia.
    + right. rewrite chunk_stored_buffer, Hg. apply overwritten_next. lia.
    + exists buffer. rewrite length_app in Hrun. split.
      * rewrite Hrun. f_equal. rewrite chunk_stored_log.
        destruct s as [[m t fs l] []]. cbn. rewrite <- app_assoc. reflexivity.
      * cbn [concat]. rewrite app_assoc. exact Hb.
Qed.

Lemma receive_chunks_app (T offset : nat) (a b : list (list byte)) (s : State) :
  receive_chunks X T offset (a ++ b) s =
  bind (receive_chunks X T offset a)
       (fun _ => receive_chunks X T (offset + length (concat a)) b) s.
Proof.
  revert offset s. induction a as [|c a IH]; intros offset s.
  - simpl. rewrite Nat.add_0_r. reflexivity.
  - cbn [app receive_chunks concat]. unfold bind.
    destruct (ReceiveMap X T offset c s) as [[] s'|flt s']; [|reflexivity].
    rewrite IH. unfold bind. rewrite length_app, Nat.add_assoc. reflexivity.
Qed.

(** X12.  Reassembly in offset order works for every way of cutting the
    data.  The chunks [chunks] followed by a last chunk that is not empty,
    fed into an empty buffer each at the offset where the one before ended,
    with the total size that of all the data: the chunks before the last are
    only stored (the log gains their progress messages and nothing else),
    the last one completes the transfer, [ProcessMap] is handed exactly the
    data, and the call returns with the buffer discarded. *)
Theorem in_order_reassembly (chunks : list (list byte)) (last : list byte) (s : State) :
  let data := concat chunks ++ last in
  let T := length data in
  _mapBuffer (client s) = [] ->
  last <> [] ->
  exists buffer s2,
    let s1 := mkState (set_log (log (world s) ++ progress_events T 0 chunks) (world s))
                      (set_mapBuffer buffer (client s)) in
    receive_chunks X T 0 chunks s = Ret tt s1 /\
    receive_chunks X T 0 (chunks ++ [last]) s =
      complete_transfer X data (chunk_stored T (length (concat chunks)) last s1) /\
    receive_chunks X T 0 (chunks ++ [last]) s = Ret tt s2 /\
    _mapBuffer (client s2) = [].
Proof.
  intros data T Hempty Hlast.
  assert (Hpos : (0 < length last)%nat) by (destruct last; [contradiction|simpl; lia]).
  assert (HT : T = (length (concat chunks) + length last)%nat)
    by (unfold T, data; apply length_app).
  destruct (receive_chunks_stored T chunks [] s) as (buffer & Hrun & Hholds).
  { simpl. lia. }
  { left. split; [exact Hempty | reflexivity]. }
  cbn [length app] in Hrun, Hholds.
  set (s1 := mkState _ _) in Hrun.
  assert (Hlastrun : receive_chunks X T 0 (chunks ++ [last]) s =
            complete_transfer X data (chunk_stored T (length (concat chunks)) last s1)).
  { rewrite receive_chunks_app. unfold bind at 1. rewrite Hrun.
    cbn [receive_chunks Nat.add]. unfold bind.
    assert (Hbuf1 : _mapBuffer (client s1) = buffer)
      by (subst s1; destruct s as [w []]; reflexivity).
    assert (Hg := grown_holds T (concat chunks) buffer ltac:(lia) Hholds).
    rewrite ReceiveMap_unfold
      by (rewrite Hbuf1, Hg, length_app, length_replicate; lia).
    destruct (Nat.eqb_spec (length (concat chunks) + length last) T); [|lia].
    rewrite Hbuf1, Hg, overwritten_next by lia.
    replace (T - length (concat chunks ++ last))%nat with 0%nat
      by (rewrite length_app; lia).
    cbn [replicate]. rewrite app_nil_r. fold data.
    destruct (complete_transfer X data _) as [[] s'|flt s']; reflexivity. }
  destruct (complete_transfer_returns X data
              (chunk_stored T (length (concat chunks)) last s1)) as (s2 & Hs2 & Hb2).
  exists buffer, s2. cbv zeta. fold s1.
  split; [exact Hrun|]. split; [exact Hlastrun|].
  split; [rewrite Hlastrun; exact Hs2 | exact Hb2].
Qed.

(** X13.  A chunk that fits in the buffer never makes [ReceiveMap] stop.
    When the chunk ends at the total size the call returns with the buffer
    discarded, whatever became of the map; otherwise the buffer is as long
    as the larger of its old length and the total size. *)
Theorem ReceiveMap_buffer_length (totalDataSize offset : nat) (dataChunk : list byte)
    (s : State) :
  (offset + length dataChunk <= length (grown totalDataSize (_mapBuffer (client s))))%nat ->
  exists s',
    ReceiveMap X totalDataSize offset dataChunk s = Ret tt s' /\
    length (_mapBuffer (client s')) =
      if (offset + length dataChunk =? totalDataSize)%nat then 0%nat
      else Nat.max (length (_mapBuffer (client s))) totalDataSize.
Proof.
  intros Hfits. rewrite ReceiveMap_unfold by exact Hfits.
  destruct (offset + length dataChunk =? totalDataSize)%nat.
  - destruct (complete_transfer_returns X
                (overwritten offset dataChunk (grown totalDataSize (_mapBuffer (client s))))
                (chunk_stored totalDataSize offset dataChunk s)) as (s' & Hrun & Hbuf).
    exists s'. split; [exact Hrun|]. rewrite Hbuf. reflexivity.
  - eexists. split; [reflexivity|]. rewrite chunk_stored_buffer.
    unfold overwritten. rewrite !length_app, length_take, length_drop.
    unfold grown in *.
    destruct (Nat.ltb_spec (length (_mapBuffer (client s))) totalDataSize).
    + rewrite length_resize in *. lia.
    + lia.
Qed.

Lemma LoadMap_cases (sv6Data : list byte) (s : State) :
  exists s',
    LoadMap X sv6Data s = Ret tt s' /\
    files (world s') = files (world s) /\
    gNetworkMode (world s') = gNetworkMode (world s) /\
    (if fst (game_load_network X sv6Data (gCurrentTicks (world s)))
     then client s' =
          set_desynchronised false
            (set_serverSrand0Tick 0
               (set_serverTick (gCurrentTicks (world s'))
                  (set_gameCommandQueue [] (client s))))
     else client s' = client s).
Proof.
  unfold LoadMap, bind, gets, emit, modify. simpl.
  destruct (game_load_network X sv6Data (gCurrentTicks (world s))) as [[|] ticks'];
    simpl; eexists; (split; [reflexivity|]);
    destruct s as [[m t fs l] []]; repeat split.
Qed.

(** X15.  [ProcessMap] always returns, and it leaves the session in one of
    two shapes.  Either no field of the client has changed, or the command
    queue is empty, the tick anchor is unset, the desynchronised mark is
    cleared and the server tick equals the current tick, with every other
    field of the client as before.  The files are never touched, and the
    network mode is as before or "none", the latter only with the client
    unchanged. *)
Theorem ProcessMap_keeps_or_resets (mapData : list byte) (s : State) :
  exists s',
    ProcessMap X mapData s = Ret tt s' /\
    files (world s') = files (world s) /\
    (client s' = client s \/
     client s' =
       set_desynchronised false
         (set_serverSrand0Tick 0
            (set_serverTick (gCurrentTicks (world s'))
               (set_gameCommandQueue [] (client s))))) /\
    (gNetworkMode (world s') = gNetworkMode (world s) \/
     gNetworkMode (world s') = NETWORK_MODE_NONE /\ client s' = client s).
Proof.
  assert (Hload : forall d s0,
            files (world s0) = files (world s) ->
            gNetworkMode (world s0) = gNetworkMode (world s) ->
            client s0 = client s ->
            exists s',
              LoadMap X d s0 = Ret tt s' /\
              files (world s') = files (world s) /\
              (client s' = client s \/
               client s' =
                 set_desynchronised false
                   (set_serverSrand0Tick 0
                      (set_serverTick (gCurrentTicks (world s'))
                         (set_gameCommandQueue [] (client s))))) /\
              (gNetworkMode (world s') = gNetworkMode (world s) \/
               gNetworkMode (world s') = NETWORK_MODE_NONE /\ client s' = client s)).
  { intros d s0 Hf Hm Hc. destruct (LoadMap_cases d s0) as (s' & Hrun & Hf' & Hm' & Hcl).
    exists s'. split; [exact Hrun|]. split; [congruence|]. split.
    - destruct (fst (game_load_network X d (gCurrentTicks (world s0)))).
      + right. rewrite Hcl, Hc. reflexivity.
      + left. congruence.
    - left. congruence. }
  unfold ProcessMap.
  destruct (String_Equals X mapData (SV6_HEADER_ZLIB_COMPRESSED X)).
  - unfold bind at 1. unfold emit, modify.
    destruct (util_zlib_inflate X _ _) as [sv6Data|].
    + apply Hload; destruct s as [[m t fs l] c]; reflexivity.
    + eexists. split; [reflexivity|].
      destruct s as [[m t fs l] c]. cbn. repeat split; auto.
  - apply Hload; reflexivity.
Qed.

(** X16.  A compressed map that does not decompress.  When the chunk that
    completes a transfer leaves a buffer that starts with the compressed-map
    header and [util_zlib_inflate] fails, [ReceiveMap] returns with the
    network mode "none", the buffer discarded and the game loader never
    called; the connection object and its socket are as before: nothing
    disconnects them. *)
Theorem ReceiveMap_corrupt_compressed_map (totalDataSize offset : nat)
    (dataChunk : list byte) (s : State) :
  let buffer := overwritten offset dataChunk (grown totalDataSize (_mapBuffer (client s))) in
  let headerSize := (String_SizeOf X (SV6_HEADER_ZLIB_COMPRESSED X) + 1)%nat in
  let bodySize := Z.of_nat (length buffer) - Z.of_nat headerSize in
  (offset + length dataChunk <= length (grown totalDataSize (_mapBuffer (client s))))%nat ->
  (offset + length dataChunk)%nat = totalDataSize ->
  String_Equals X buffer (SV6_HEADER_ZLIB_COMPRESSED X) = true ->
  util_zlib_inflate X (drop headerSize buffer) bodySize = None ->
  ReceiveMap X totalDataSize offset dataChunk s =
  Ret tt
    (mkState
       (set_gNetworkMode NETWORK_MODE_NONE
          (set_log (log (world s) ++
                    [progress_event totalDataSize offset dataChunk;
                     EvNetworkStatusClose;
                     EvZlibInflate (drop headerSize buffer) bodySize])
             (world s)))
       (set_mapBuffer [] (client s))).
Proof.
  intros buffer headerSize bodySize Hfits Hsum Hheader Hinflate.
  rewrite ReceiveMap_unfold by exact Hfits.
  destruct (Nat.eqb_spec (offset + length dataChunk) totalDataSize); [|contradiction].
  fold buffer. unfold complete_transfer, bind, emit, modify, ProcessMap.
  rewrite Hheader. fold headerSize. fold bodySize.
  unfold bind, emit, modify. rewrite Hinflate.
  unfold chunk_stored. fold buffer.
  destruct s as [[m t fs l] c]. destruct c.
  unfold on_client, on_world, set_log, set_gNetworkMode. cbn.
  rewrite <- !app_assoc. reflexivity.
Qed.

Lemma sequence_app {S} (a b : list (M S unit)) (s : S) :
  sequence_ (a ++ b) s = bind (sequence_ a) (fun _ => sequence_ b) s.
Proof.
  revert s. induction a as [|c a IH]; intros s; [reflexivity|].
  cbn [app sequence_]. unfold bind.
  destruct (c s) as [[] s'|flt s']; [|reflexivity].
  rewrite IH. reflexivity.
Qed.

(** X17.  Commands that arrive while the map is still downloading are lost
    when the map loads.  After any commands were received, a chunk that
    completes the transfer of an uncompressed map which the game loader
    accepts leaves the command queue empty, the tick anchor unset, the
    server tick at the current tick and the buffer discarded. *)
Theorem commands_before_map_load_are_dropped (commands : list GameCommand)
    (totalDataSize offset : nat) (dataChunk : list byte) (s : State) :
  let buffer := overwritten offset dataChunk (grown totalDataSize (_mapBuffer (client s))) in
  (offset + length dataChunk <= length (grown totalDataSize (_mapBuffer (client s))))%nat ->
  (offset + length dataChunk)%nat = totalDataSize ->
  String_Equals X buffer (SV6_HEADER_ZLIB_COMPRESSED X) = false ->
  fst (game_load_network X buffer (gCurrentTicks (world s))) = true ->
  exists s',
    sequence_ (map RecieveGameCommand commands ++
               [ReceiveMap X totalDataSize offset dataChunk]) s = Ret tt s' /\
    _gameCommandQueue (client s') = [] /\
    _serverSrand0Tick (client s') = 0 /\
    _serverTick (client s') = gCurrentTicks (world s') /\
    _mapBuffer (client s') = [].
Proof.
  intros buffer Hfits Hsum Hheader Hload.
  rewrite sequence_app. unfold bind at 1. rewrite RecieveGameCommand_all.
  set (s0 := on_client _ s).
  assert (Hbuf0 : _mapBuffer (client s0) = _mapBuffer (client s))
    by (subst s0; destruct s as [w []]; reflexivity).
  assert (Hticks0 : gCurrentTicks (world s0) = gCurrentTicks (world s))
    by (subst s0; destruct s as [w []]; reflexivity).
  cbn [sequence_]. unfold bind at 1.
  rewrite ReceiveMap_unfold by (rewrite Hbuf0; exact Hfits).
  destruct (Nat.eqb_spec (offset + length dataChunk) totalDataSize); [|contradiction].
  rewrite Hbuf0. fold buffer.
  unfold complete_transfer, bind, emit, modify, ProcessMap. rewrite Hheader.
  set (s1 := on_world _ (chunk_stored totalDataSize offset dataChunk s0)).
  assert (Hticks1 : gCurrentTicks (world s1) = gCurrentTicks (world s)).
  { rewrite <- Hticks0. subst s1. destruct s0 as [[m t fs l] c]; reflexivity. }
  destruct (LoadMap_cases buffer s1) as (s2 & Hrun & _ & _ & Hcl).
  rewrite Hticks1, Hload in Hcl. rewrite Hrun. unfold ret.
  eexists. split; [reflexivity|].
  destruct s2 as [w2 c2]. cbn in Hcl. subst c2.
  clear Hrun Hticks1 Hticks0 Hbuf0 Hheader Hload Hfits. subst s1 s0 buffer.
  destruct s as [w []]. cbn. repeat split.
Qed.

End MapTransferMore.

(** *** More on authentication *)

Section AuthenticationMore.

Context (X : Externals).

(** X18.  [SendAuthentication] on a client with a connection.  A signature
    length above [UINT32_MAX] fails the guard with nothing changed and
    nothing queued.  A length from 0 to [UINT32_MAX] queues exactly one
    packet behind the packets already queued; its length field equals the
    length of the raw signature write that follows it; the authentication
    status reads "requested" afterwards; the socket, the disconnect reason
    and everything outside the connection are as before. *)
Theorem SendAuthentication_outcome (playerName password pubkey : string)
    (signature : option (list byte)) (sigsize : Z) (s : State) (conn : NetworkConnection) :
  _serverConnection (client s) = Some conn ->
  (UINT32_MAX < sigsize ->
   SendAuthentication X playerName password pubkey signature sigsize s
     = Abort GuardFailed s) /\
  (0 <= sigsize <= UINT32_MAX ->
   let s' :=
     on_client (set_serverConnection
       (Some (mkNetworkConnection (Socket conn) NETWORK_AUTH_REQUESTED
                (LastDisconnectReason conn)
                (QueuedPackets conn ++
                 [[ PCommand NETWORK_COMMAND_AUTH;
                    PString (NETWORK_STREAM_ID X);
                    PString playerName;
                    PString password;
                    PString pubkey;
                    PUint32 sigsize;
                    PRaw signature sigsize ]])))) s in
   SendAuthentication X playerName password pubkey signature sigsize s = Ret tt s' /\
   GetAuthStatus s' = Ret NETWORK_AUTH_REQUESTED s').
Proof.
  intros Hconn. split.
  - intros Hbig. unfold SendAuthentication, bind, Guard_Assert.
    destruct (Z.leb_spec sigsize UINT32_MAX); [lia|]. reflexivity.
  - intros Hrange s'. split.
    + unfold SendAuthentication, bind, Guard_Assert.
      destruct (Z.leb_spec sigsize UINT32_MAX); [|lia]. unfold ret.
      unfold set_AuthStatus, QueuePacket.
      erewrite on_connection_present by exact Hconn.
      erewrite on_connection_present by (destruct s as [w []]; reflexivity).
      assert (Hfield : to_uint32 sigsize = sigsize).
      { unfold to_uint32. apply Z.mod_small. unfold UINT32_MAX in Hrange. lia. }
      rewrite Hfield. subst s'. destruct s as [w []]; reflexivity.
    + subst s'. unfold GetAuthStatus, bind, server_connection, gets.
      destruct s as [w []]; reflexivity.
Qed.

(** X19.  The path of [HandleChallenge] on which nothing fails.  With a key
    in the key store, the private key loading and [Sign] succeeding with a
    length within the guard, [HandleChallenge] returns with the challenge
    stored, the key store unloaded, and one authentication packet queued
    that carries the player name, an empty password, the public key text
    read before the load, and the signature; the socket is not disconnected
    and no disconnect reason is set.  Since the key store is unloaded by
    then, a [SendPassword] that follows stops at [PublicKeyString] whatever
    the password. *)
Theorem HandleChallenge_signs_and_unloads (challenge : list byte) (s s2 : State)
    (pubkey : string) (signature : option (list byte)) (sigsize : Z)
    (conn : NetworkConnection) :
  _serverConnection (client s) = Some conn ->
  NetworkKey_PublicKeyString X (on_client (set_challenge challenge) s)
    = Ret pubkey (on_client (set_challenge challenge) s) ->
  LoadPrivateKey X (on_client (set_challenge challenge) s) = Ret true s2 ->
  NetworkKey_Sign X challenge (indeterminate_size X) s2
    = Ret (true, signature, sigsize) s2 ->
  sigsize <= UINT32_MAX ->
  exists s',
    HandleChallenge X challenge s = Ret tt s' /\
    _challenge (client s') = challenge /\
    unloaded s' /\
    _serverConnection (client s') =
      Some (mkNetworkConnection (Socket conn) NETWORK_AUTH_REQUESTED
              (LastDisconnectReason conn)
              (QueuedPackets conn ++
               [[ PCommand NETWORK_COMMAND_AUTH;
                  PString (NETWORK_STREAM_ID X);
                  PString (player_name X);
                  PString "";
                  PString pubkey;
                  PUint32 (to_uint32 sigsize);
                  PRaw signature sigsize ]])) /\
    (forall password, SendPassword X password s' = Abort NullString s').
Proof.
  intros Hconn Hpub Hload Hsign Hguard.
  pose proof (key_only_LoadPrivateKey X (on_client (set_challenge challenge) s)) as Hstep.
  rewrite Hload in Hstep. simpl in Hstep.
  assert (Hch : _challenge (client s2) = challenge).
  { rewrite (key_step_challenge _ _ Hstep). destruct s as [w []]; reflexivity. }
  assert (Hconn2 : _serverConnection (client s2) = Some conn).
  { rewrite (key_step_connection _ _ Hstep), <- Hconn. destruct s as [w []]; reflexivity. }
  unfold HandleChallenge. unfold bind at 1. unfold modify at 1.
  unfold bind at 1. rewrite Hpub.
  unfold bind at 1. rewrite Hload. cbn [negb].
  unfold bind at 1. unfold gets at 1. rewrite Hch.
  unfold bind at 1. rewrite Hsign. cbn [negb].
  unfold bind at 1.
  pose proof (key_only_Unload s2) as Hstep3.
  destruct (Unload_result s2) as (s3 & Hrun3 & Hun & Hc3).
  rewrite Hrun3 in *. cbn [final_state] in Hstep3. rewrite Hconn2 in Hc3.
  assert (Hch3 : _challenge (client s3) = challenge)
    by (rewrite (key_step_challenge _ _ Hstep3); exact Hch).
  unfold SendAuthentication, bind, Guard_Assert.
  destruct (Z.leb_spec sigsize UINT32_MAX); [|lia]. unfold ret.
  unfold set_AuthStatus, QueuePacket.
  erewrite on_connection_present by exact Hc3.
  erewrite on_connection_present by (destruct s3 as [w []]; reflexivity).
  eexists. split; [reflexivity|].
  split; [destruct s3 as [w []]; exact Hch3|].
  split; [destruct s3 as [w []]; exact Hun|].
  split; [destruct s3 as [w []]; reflexivity|].
  intros password. unfold SendPassword. unfold bind at 1.
  rewrite PublicKeyString_unloaded; [reflexivity|].
  destruct s3 as [w []]; exact Hun.
Qed.

End AuthenticationMore.

(** *** The properties above at concrete inputs *)

Lemma SetupUserKey_existing_key_witness :
  (exists l,
     SetupUserKey (Demo.externals true true) (Demo.idle NETWORK_MODE_NONE) =
     Ret true
         (mkState (set_log l (world (Demo.idle NETWORK_MODE_NONE)))
                  (set_key (mkNetworkKey
                              (m_ctx (_key (client (Demo.idle NETWORK_MODE_NONE)))) None)
                           (client (Demo.idle NETWORK_MODE_NONE))))) /\
  (exists l,
     SetupUserKey (Demo.externals true true) DemoMore.empty_key =
     Abort NullDereference
           (mkState (set_log l (world DemoMore.empty_key)) (client DemoMore.empty_key))).
Proof.
  split.
  - apply (SetupUserKey_existing_key (Demo.externals true true)
             (Demo.idle NETWORK_MODE_NONE) Demo.key_file).
    + reflexivity.
    + reflexivity.
    + vm_compute. discriminate.
  - apply (SetupUserKey_existing_key (Demo.externals true true)
             DemoMore.empty_key DemoMore.empty_key_file).
    + reflexivity.
    + reflexivity.
    + vm_compute. discriminate.
Defined.

Lemma LoadPrivateKey_missing_or_unreadable_witness :
  LoadPrivateKey (Demo.externals true true) Demo.first_run = Ret false Demo.first_run /\
  LoadPrivateKey (Demo.externals true true) DemoMore.locked_key
    = Abort NullDereference DemoMore.locked_key /\
  SetupUserKey (Demo.externals true true) DemoMore.locked_key
    = Ret false DemoMore.locked_key.
Proof.
  split.
  - apply (proj1 (LoadPrivateKey_missing_or_unreadable (Demo.externals true true)
                    Demo.first_run)).
    reflexivity.
  - apply (proj2 (LoadPrivateKey_missing_or_unreadable (Demo.externals true true)
                    DemoMore.locked_key) DemoMore.locked_key_file); reflexivity.
Defined.

Lemma handlers_need_loaded_key_witness :
  HandleChallenge (Demo.externals true true) Demo.challenge Demo.first_run =
    Abort NullString (on_client (set_challenge Demo.challenge) Demo.first_run) /\
  SendPassword (Demo.externals true true) "secret" Demo.first_run =
    Abort NullString Demo.first_run.
Proof.
  apply (handlers_need_loaded_key (Demo.externals true true) Demo.challenge "secret"
           Demo.first_run).
  reflexivity.
Defined.

Lemma Begin_then_HandleChallenge_witness :
  (exists s1,
     gNetworkMode (world s1) = NETWORK_MODE_CLIENT /\
     Begin (Demo.externals true true) Demo.host Demo.port (Demo.idle NETWORK_MODE_NONE) =
       Ret true s1 /\
     unloaded s1 /\
     HandleChallenge (Demo.externals true true) Demo.challenge s1 =
       Abort NullString (on_client (set_challenge Demo.challenge) s1) /\
     (exists conn,
        _serverConnection (client (on_client (set_challenge Demo.challenge) s1))
          = Some conn /\
        QueuedPackets conn = [])) /\
  (exists s1,
     gNetworkMode (world s1) = NETWORK_MODE_CLIENT /\
     Begin (Demo.externals true true) Demo.host Demo.port DemoMore.empty_key =
       Abort NullDereference s1).
Proof.
  split.
  - apply (Begin_then_HandleChallenge (Demo.externals true true) Demo.host Demo.port
             (Demo.idle NETWORK_MODE_NONE) Demo.key_file Demo.challenge).
    + reflexivity.
    + reflexivity.
    + reflexivity.
    + vm_compute. discriminate.
  - apply (Begin_then_HandleChallenge (Demo.externals true true) Demo.host Demo.port
             DemoMore.empty_key DemoMore.empty_key_file Demo.challenge).
    + reflexivity.
    + reflexivity.
    + reflexivity.
    + vm_compute. discriminate.
Defined.

Lemma SetupUserKey_generation_failure_witness :
  exists s',
    SetupUserKey (Demo.externals true true) DemoMore.no_keygen_context
      = Abort NullString s' /\
    files (world s') =
      <[Demo.private_key_path := mkFile (mkRWops 0 []) true]>
        (files (world DemoMore.no_keygen_context)) /\
    unloaded s'.
Proof.
  apply (SetupUserKey_generation_failure (Demo.externals true true)
           DemoMore.no_keygen_context DemoMore.no_keygen_context); reflexivity.
Defined.

Lemma SetupUserKey_first_run_witness :
  exists s',
    SetupUserKey (Demo.externals true true) Demo.first_run = Ret true s' /\
    files (world s') =
      <["keys/Guest-ab01.pubkey" :=
          mkFile (mkRWops (Z.of_nat (length Demo.public_pem)) Demo.public_pem) true]>
        (<[Demo.private_key_path :=
             mkFile (mkRWops (Z.of_nat (length Demo.private_pem)) Demo.private_pem) true]>
           (files (world Demo.first_run))) /\
    m_key (_key (client s')) = Some (mkEVP_PKEY (Some Demo.rsa)).
Proof.
  apply (SetupUserKey_first_run (Demo.externals true true) Demo.first_run
           RsaKeygenContext (mkEVP_PKEY (Some Demo.rsa)) Demo.rsa
           Demo.private_pem Demo.public_pem);
    try reflexivity; try (vm_compute; discriminate).
Defined.

Lemma LoadPublic_accepts_any_content_witness :
  exists s',
    NetworkKey_LoadPublic (Demo.externals true true) (Some (mkRWops 0 [])) Demo.first_run
      = Ret true s' /\
    m_key (_key (client s')) = Some (mkEVP_PKEY None) /\
    (@None RSA = None ->
     NetworkKey_PublicKeyString (Demo.externals true true) s' = Abort NullString s' /\
     forall path,
       NetworkKey_SavePublic (Demo.externals true true) path s' = Ret false s' /\
       NetworkKey_SavePrivate (Demo.externals true true) path s' = Ret false s').
Proof.
  apply (LoadPublic_accepts_any_content (Demo.externals true true) (mkRWops 0 [])
           Demo.first_run).
  - simpl. lia.
  - reflexivity.
Defined.

Lemma SavePrivate_then_LoadPrivate_witness :
  let X := Demo.externals true true in
  let file := mkRWops (Z.of_nat (length Demo.private_pem)) Demo.private_pem in
  exists s1 s2,
    NetworkKey_SavePrivate X "keys/copy.privkey" Demo.in_session = Ret true s1 /\
    SDL_RWFromFile_rb "keys/copy.privkey" s1 = Ret (Some file) s1 /\
    key_file_bytes file = Demo.private_pem /\
    NetworkKey_LoadPrivate X (Some file) s1 = Ret true s2 /\
    (true = true -> m_key (_key (client s2)) = Some (mkEVP_PKEY (Some Demo.rsa))).
Proof.
  apply (SavePrivate_then_LoadPrivate (Demo.externals true true) "keys/copy.privkey"
           Demo.in_session (mkEVP_PKEY (Some Demo.rsa)) Demo.rsa Demo.private_pem);
    try reflexivity; try (vm_compute; discriminate).
Defined.

Lemma PublicKeyHash_format_witness :
  Demo.in_session = Demo.in_session /\
  exists key,
    NetworkKey_PublicKeyString (Demo.externals true true) Demo.in_session
      = Ret key Demo.in_session /\
    key <> EmptyString /\
    "ab01" = hex_string (EVP_DigestFinal (Demo.externals true true) key) /\
    String.length "ab01" =
      (2 * length (EVP_DigestFinal (Demo.externals true true) key))%nat /\
    unhex_string "ab01" = Some (EVP_DigestFinal (Demo.externals true true) key).
Proof.
  apply (proj1 (PublicKeyHash_format (Demo.externals true true))
           Demo.in_session Demo.in_session "ab01").
  vm_compute. reflexivity.
Defined.

Lemma in_order_reassembly_witness :
  let X := Demo.externals true true in
  let chunks := [[Byte.x41; Byte.x42]; [Byte.x43]] in
  let data := [Byte.x41; Byte.x42; Byte.x43; Byte.x44] in
  exists buffer s2,
    let s1 := mkState (set_log (log (world Demo.first_run) ++ progress_events 4 0 chunks)
                         (world Demo.first_run))
                      (set_mapBuffer buffer (client Demo.first_run)) in
    receive_chunks X 4 0 chunks Demo.first_run = Ret tt s1 /\
    receive_chunks X 4 0 (chunks ++ [[Byte.x44]]) Demo.first_run =
      complete_transfer X data (chunk_stored 4 3 [Byte.x44] s1) /\
    receive_chunks X 4 0 (chunks ++ [[Byte.x44]]) Demo.first_run = Ret tt s2 /\
    _mapBuffer (client s2) = [].
Proof.
  apply (in_order_reassembly (Demo.externals true true)
           [[Byte.x41; Byte.x42]; [Byte.x43]] [Byte.x44] Demo.first_run).
  - reflexivity.
  - discriminate.
Defined.

Lemma ReceiveMap_buffer_length_witness :
  exists s',
    ReceiveMap (Demo.externals true true) 4 0 [Byte.x41; Byte.x42] Demo.first_run
      = Ret tt s' /\
    length (_mapBuffer (client s')) = 4%nat.
Proof.
  apply (ReceiveMap_buffer_length (Demo.externals true true) 4 0 [Byte.x41; Byte.x42]
           Demo.first_run).
  vm_compute. lia.
Defined.

Lemma ReceiveMap_corrupt_compressed_map_witness :
  ReceiveMap DemoMore.externals_corrupt_zlib 7 0 DemoMore.compressed_map Demo.in_session =
  Ret tt
    (mkState
       (set_gNetworkMode NETWORK_MODE_NONE
          (set_log (log (world Demo.in_session) ++
                    [progress_event 7 0 DemoMore.compressed_map;
                     EvNetworkStatusClose;
                     EvZlibInflate [Byte.x78; Byte.x9c] 2])
             (world Demo.in_session)))
       (set_mapBuffer [] (client Demo.in_session))).
Proof.
  apply (ReceiveMap_corrupt_compressed_map DemoMore.externals_corrupt_zlib 7 0
           DemoMore.compressed_map Demo.in_session).
  - vm_compute. lia.
  - reflexivity.
  - reflexivity.
  - reflexivity.
Defined.

Lemma commands_before_map_load_are_dropped_witness :
  exists s',
    sequence_ (map RecieveGameCommand [Demo.command 5 1; Demo.command 2 2] ++
               [ReceiveMap (Demo.externals true true) 2 0 [Byte.x41; Byte.x42]])
              Demo.first_run = Ret tt s' /\
    _gameCommandQueue (client s') = [] /\
    _serverSrand0Tick (client s') = 0 /\
    _serverTick (client s') = gCurrentTicks (world s') /\
    _mapBuffer (client s') = [].
Proof.
  apply (commands_before_map_load_are_dropped (Demo.externals true true)
           [Demo.command 5 1; Demo.command 2 2] 2 0 [Byte.x41; Byte.x42] Demo.first_run).
  - vm_compute. lia.
  - reflexivity.
  - reflexivity.
  - reflexivity.
Defined.

Lemma SendAuthentication_outcome_witness :
  let X := Demo.externals true true in
  (SendAuthentication X "Guest" "" "PUBLIC KEY" None 4294967296 Demo.in_session
     = Abort GuardFailed Demo.in_session) /\
  (let s' :=
     on_client (set_serverConnection
       (Some (mkNetworkConnection (Socket Demo.connection) NETWORK_AUTH_REQUESTED
                (LastDisconnectReason Demo.connection)
                (QueuedPackets Demo.connection ++
                 [[ PCommand NETWORK_COMMAND_AUTH;
                    PString (NETWORK_STREAM_ID X);
                    PString "Guest";
                    PString "";
                    PString "PUBLIC KEY";
                    PUint32 2;
                    PRaw (Some DemoMore.signature) 2 ]])))) Demo.in_session in
   SendAuthentication X "Guest" "" "PUBLIC KEY" (Some DemoMore.signature) 2 Demo.in_session
     = Ret tt s' /\
   GetAuthStatus s' = Ret NETWORK_AUTH_REQUESTED s').
Proof.
  split.
  - apply (proj1 (SendAuthentication_outcome (Demo.externals true true)
                    "Guest" "" "PUBLIC KEY" None 4294967296 Demo.in_session
                    Demo.connection eq_refl)).
    reflexivity.
  - apply (proj2 (SendAuthentication_outcome (Demo.externals true true)
                    "Guest" "" "PUBLIC KEY" (Some DemoMore.signature) 2 Demo.in_session
                    Demo.connection eq_refl)).
    unfold UINT32_MAX. lia.
Defined.

Lemma HandleChallenge_signs_and_unloads_witness :
  let X := Demo.externals true true in
  exists s',
    HandleChallenge X Demo.challenge Demo.in_session = Ret tt s' /\
    _challenge (client s') = Demo.challenge /\
    unloaded s' /\
    _serverConnection (client s') =
      Some (mkNetworkConnection (Socket Demo.connection) NETWORK_AUTH_REQUESTED
              (LastDisconnectReason Demo.connection)
              (QueuedPackets Demo.connection ++
               [[ PCommand NETWORK_COMMAND_AUTH;
                  PString (NETWORK_STREAM_ID X);
                  PString (player_name X);
                  PString "";
                  PString "PUBLIC KEY";
                  PUint32 (to_uint32 2);
                  PRaw (Some DemoMore.signature) 2 ]])) /\
    (forall password, SendPassword X password s' = Abort NullString s').
Proof.
  apply (HandleChallenge_signs_and_unloads (Demo.externals true true)
           Demo.challenge Demo.in_session
           (final_state (LoadPrivateKey (Demo.externals true true)
                           (on_client (set_challenge Demo.challenge) Demo.in_session)))
           "PUBLIC KEY" (Some DemoMore.signature) 2 Demo.connection).
  - reflexivity.
  - vm_compute. reflexivity.
  - vm_compute. reflexivity.
  - vm_compute. reflexivity.
  - vm_compute. discriminate.
Defined.
